(** * The BTree adapter of YCSB-cpp: row codec, CRUD translation, lifecycle

    A shallow embedding of [src/btree/btree_db.cc] and [src/btree/btree_db.h]
    and the properties of the row format, of the five CRUD operations and of
    the reference-counted engine handle.

    Conventions of the embedding:
    - [std::string] is a list of bytes ([std_string]);
    - a pointer pair [(p, lim)] into a buffer is the list of the bytes in
      [[p, lim)]; advancing [p] drops bytes from the front, [p == lim] is the
      empty list, and a read that needs a byte at [lim] or beyond has the
      outcome [Undefined].  This is on the safe side of the source, whose
      buffers are [std::string]s: the one byte at [lim] is the terminator and
      may be read, which puts [p] behind [lim]; from there a build with
      assertions stops at [assert(p < lim)] and an [NDEBUG] build reads out of
      bounds.  What is proved of buffers that are not encodings is therefore
      only what holds either way: that the decode does not return normally,
      or what it has returned if it does;
    - [assert] aborts the process unless the build defines [NDEBUG];
    - the static members [db_], [ref_cnt_] and the receiver of a call are
      fields of a [state] that the member functions thread explicitly; [Init]
      and [Cleanup] hold [mu_] for their whole body and are therefore single
      steps. *)

From Stdlib Require Import ZArith Lia List.
From Stdlib Require Import Strings.Byte Strings.String.
From stdpp Require Import base option list sorting lexico gmap.

Local Open Scope Z_scope.

(** ** Byte strings *)

Abbreviation std_string := (list byte).

(** Modelled from the spec: [struct Field] of [core/db.h], which is not among
    the sources; a field is a pair of byte strings, its name and its value. *)
Record Field := mkField { name : std_string; value : std_string }.

Global Instance byte_eq_dec : EqDecision byte := Byte.byte_eq_dec.
Global Instance byte_countable : Countable byte :=
  inj_countable Byte.to_N Byte.of_N Byte.of_to_N.
Global Instance Field_eq_dec : EqDecision Field.
Proof. solve_decision. Defined.

(** ** Outcomes

    A call returns normally ([Done]), leaves by a C++ exception ([Thrown]),
    stops the process on a failed [assert] ([AssertionFailed]), or runs into
    undefined behaviour ([Undefined]: a read past [lim], a call through a null
    or deleted [db_], a second [delete], an overflowing [int]).  [OutOfFuel]
    belongs to the embedding of the [while] loops only and is never produced by
    the functions that supply the fuel (see [DeserializeRow_total] and
    [DeserializeRowFilter_total]). *)
Inductive exception :=
| Exception (what : std_string)   (* utils::Exception *)
| invalid_argument                (* std::invalid_argument *)
| out_of_range.                   (* std::out_of_range *)

Inductive outcome (A : Type) : Type :=
| Done (a : A)
| Thrown (e : exception)
| AssertionFailed
| Undefined
| OutOfFuel.
Arguments Done {A} a.
Arguments Thrown {A} e.
Arguments AssertionFailed {A}.
Arguments Undefined {A}.
Arguments OutOfFuel {A}.

Global Instance outcome_ret : MRet outcome := @Done.
Global Instance outcome_bind : MBind outcome := λ A B f m,
  match m with
  | Done a => f a
  | Thrown e => Thrown e
  | AssertionFailed => AssertionFailed
  | Undefined => Undefined
  | OutOfFuel => OutOfFuel
  end.

(** ** The 32-bit length prefix *)

Definition Z_of_byte (b : byte) : Z := Z.of_N (Byte.to_N b).

Definition byte_of_Z (z : Z) : byte :=
  match Byte.of_N (Z.to_N (Z.land z 255)) with
  | Some b => b
  | None => x00
  end.

(** [uint32_t len = s.size();] converts a [size_t] to 32 bits. *)
Definition uint32_of_size (n : nat) : Z := Z.of_nat n mod 2 ^ 32.

(** [reinterpret_cast<char *>(&len)]: the four bytes of a [uint32_t] in
    memory, least significant first (little-endian host). *)
Definition uint32_bytes (len : Z) : std_string :=
  [ byte_of_Z len;
    byte_of_Z (Z.shiftr len 8);
    byte_of_Z (Z.shiftr len 16);
    byte_of_Z (Z.shiftr len 24) ].

(** [*reinterpret_cast<const uint32_t *>(p)] on the same host. *)
Definition uint32_of_bytes (b0 b1 b2 b3 : byte) : Z :=
  Z.lor (Z_of_byte b0)
    (Z.lor (Z.shiftl (Z_of_byte b1) 8)
       (Z.lor (Z.shiftl (Z_of_byte b2) 16) (Z.shiftl (Z_of_byte b3) 24))).

(** ** SerializeRow (btree_db.cc, lines 69-78) *)

Definition SerializeField (data : std_string) (field : Field) : std_string :=
  let len := uint32_of_size (length (name field)) in
  let data := data ++ uint32_bytes len in
  let data := data ++ name field in
  let len := uint32_of_size (length (value field)) in
  let data := data ++ uint32_bytes len in
  data ++ value field.

(** [data] is the string passed by reference; the result is its final
    content. *)
Definition SerializeRow (values : list Field) (data : std_string) : std_string :=
  foldl SerializeField data values.

(** ** Reading through the cursor [p] *)

(** [len = *reinterpret_cast<const uint32_t *>(p); p += sizeof(uint32_t);] *)
Definition read_uint32 (p : std_string) : outcome (Z * std_string) :=
  match p with
  | b0 :: b1 :: b2 :: b3 :: p => Done (uint32_of_bytes b0 b1 b2 b3, p)
  | _ => Undefined
  end.

(** [std::string s(p, static_cast<const size_t>(len)); p += len;] *)
Definition read_string (p : std_string) (len : Z) : outcome (std_string * std_string) :=
  if Z.of_nat (length p) <? len then Undefined
  else Done (take (Z.to_nat len) p, drop (Z.to_nat len) p).

(** ** What the build and the environment fix

    None of these is decided by the two source files: whether the translation
    unit is compiled with [-DNDEBUG]; [PAGE_SIZE] of [<common/config.h>]; the
    two string constants of [core/core_workload.h]; and what an engine opened
    on a path holds at that moment ([durable]). *)
Class Build := {
  NDEBUG : bool;
  PAGE_SIZE : Z;
  FIELD_COUNT_PROPERTY : std_string;
  FIELD_COUNT_DEFAULT : std_string;
  durable : std_string → gmap std_string std_string
}.

Section Codec.
Context `{!Build}.

Definition assert (c : bool) : outcome unit :=
  if NDEBUG then Done tt else if c then Done tt else AssertionFailed.

(** One turn of the loop body shared by both decoders (lines 84-92 and
    110-118): the decoded field and the advanced cursor. *)
Definition read_field (p : std_string) : outcome (Field * std_string) :=
  _ ← assert (bool_decide (0 < length p)%nat);
  '(len, p) ← read_uint32 p;
  '(field, p) ← read_string p len;
  '(len, p) ← read_uint32 p;
  '(value, p) ← read_string p len;
  Done ({| name := field; value := value |}, p).

(** ** DeserializeRow (lines 108-121) *)
Fixpoint DeserializeRow_loop (fuel : nat) (values : list Field) (p : std_string)
  : outcome (list Field) :=
  match p with
  | [] => Done values
  | _ :: _ =>
    match fuel with
    | O => OutOfFuel
    | S fuel =>
      '(f, p) ← read_field p;
      DeserializeRow_loop fuel (values ++ [f]) p
    end
  end.

(** Lines 123-127: every turn consumes at least eight bytes, so the size of
    the buffer bounds the number of turns. *)
Definition DeserializeRow (values : list Field) (data : std_string)
  : outcome (list Field) :=
  DeserializeRow_loop (length data) values data.

(** ** DeserializeRowFilter (lines 80-99)

    [filter] is the range [[filter_iter, fields.end())]. *)
Fixpoint DeserializeRowFilter_loop (fuel : nat) (values : list Field)
    (p : std_string) (filter : list std_string) : outcome (list Field) :=
  match p, filter with
  | [], _ => Done values
  | _, [] => Done values
  | _ :: _, wanted :: filter' =>
    match fuel with
    | O => OutOfFuel
    | S fuel =>
      '(f, p) ← read_field p;
      if decide (wanted = name f)
      then DeserializeRowFilter_loop fuel (values ++ [f]) p filter'
      else DeserializeRowFilter_loop fuel values p filter
    end
  end.

Definition DeserializeRowFilter_range (values : list Field) (p : std_string)
    (fields : list std_string) : outcome (list Field) :=
  values ← DeserializeRowFilter_loop (length p) values p fields;
  _ ← assert (bool_decide (length values = length fields));
  Done values.

(** Lines 101-106. *)
Definition DeserializeRowFilter (values : list Field) (data : std_string)
    (fields : list std_string) : outcome (list Field) :=
  DeserializeRowFilter_range values data fields.
End Codec.

(** ** The ordered key-value engine

    [cmudb::KVTable] of [<table/kv_table.h>] is not among the sources; the
    spec describes it as an ordered key-value engine with point [Get], [Put]
    and a forward [Seek].  Keys are compared as byte strings, the first
    differing byte deciding and a proper prefix coming first. *)

Global Instance byte_lexico : Lexico byte := λ a b, (Byte.to_N a < Byte.to_N b)%N.

Global Instance byte_lexico_po : StrictOrder (@lexico byte _).
Proof.
  unfold lexico, byte_lexico. split.
  - intros b Hb. exact (N.lt_irrefl _ Hb).
  - intros a b c. apply N.lt_trans.
Qed.

Global Instance byte_lexico_trichotomy : TrichotomyT (@lexico byte _).
Proof.
  red; refine (λ a b,
    match N.compare (Byte.to_N a) (Byte.to_N b) as c
          return N.compare (Byte.to_N a) (Byte.to_N b) = c → _ with
    | Lt => λ H, inleft (left (proj2 (N.compare_lt_iff _ _) H))
    | Eq => λ H, inleft (right _)
    | Gt => λ H, inright (proj1 (N.compare_gt_iff _ _) H)
    end eq_refl).
  apply N.compare_eq in H.
  assert (Some a = Some b) as [= ->]; [|reflexivity].
  rewrite <- (Byte.of_to_N a), <- (Byte.of_to_N b). by rewrite H.
Defined.

(** [a <= b] on keys. *)
Definition key_le (a b : std_string) : Prop := a = b ∨ lexico a b.

Global Instance key_le_dec : RelDecision key_le.
Proof.
  refine (λ a b,
    match trichotomyT lexico a b with
    | inleft (left H) => left (or_intror H)
    | inleft (right H) => left (or_introl H)
    | inright H => right _
    end).
  intros [->|H']; [exact (irreflexivity lexico _ H)|].
  exact (irreflexivity lexico _ (transitivity H H')).
Defined.

Abbreviation entry := (std_string * std_string)%type.

Definition entry_le (a b : entry) : Prop := key_le a.1 b.1.

Global Instance entry_le_dec : RelDecision entry_le := λ a b, key_le_dec a.1 b.1.

(** Modelled from the spec: the engine handle [cmudb::KVTable], created from a
    path and a page budget, holding the storage entries (key to encoded
    row). *)
Record KVTable := mkKVTable {
  table_path : std_string;
  table_pages : Z;
  entries : gmap std_string std_string
}.

(** Modelled from the spec: [bool KVTable::Get(key, data)], the point lookup;
    the stored value, if any. *)
Definition Get (t : KVTable) (key : std_string) : option std_string :=
  entries t !! key.

(** Modelled from the spec: [KVTable::Put(key, data)], which creates or
    overwrites the entry. *)
Definition Put (t : KVTable) (key data : std_string) : KVTable :=
  mkKVTable (table_path t) (table_pages t) (<[key := data]> (entries t)).

(** Modelled from the spec: [KVTable::Seek(key)], the forward iterator
    positioned at the first entry whose key is at least [key], as the list of
    the entries it will yield; [isEnd] is the empty list, [*it] the head and
    [++it] the tail. *)
Definition Seek (t : KVTable) (key : std_string) : list entry :=
  merge_sort entry_le
    (map_to_list (filter (λ e : entry, key_le key e.1) (entries t))).

(** ** The state the member functions act on *)

(** Modelled from the spec: [DB::Status] of [core/db.h], which is not among
    the sources; the status of a CRUD call is one of OK, NotFound and Error. *)
Inductive Status := kOK | kNotFound | kError.

Global Instance Status_eq_dec : EqDecision Status.
Proof. solve_decision. Defined.

(** The value of the static [cmudb::KVTable *db_]: null, pointing to an open
    engine, or still pointing to an engine that [delete] has destroyed. *)
Inductive pointer :=
| nullptr
| live (t : KVTable)
| dangling.

(** Calls of the engine's constructor and destructor, oldest first; they are
    not program state but let the lifecycle properties count them. *)
Inductive event :=
| Opened (path : std_string) (page_num : Z)
| Closed.

Global Instance event_eq_dec : EqDecision event.
Proof. solve_decision. Defined.

(** Non-static members of a [BTreeDB] ([props_] is inherited from [DB]); the
    five method pointers are left out: [Init] sets each of them to the
    [...Single] member of the same name, which is the only variant. *)
Record BTreeDB := mkBTreeDB {
  props_ : gmap std_string std_string;
  fieldcount_ : Z
}.

(** The receiver of the running call and the static members. *)
Record state := mkState {
  this : BTreeDB;
  db_ : pointer;
  ref_cnt_ : Z;
  trace : list event
}.

Definition set_this (o : BTreeDB) (s : state) : state :=
  mkState o (db_ s) (ref_cnt_ s) (trace s).
Definition set_db_ (d : pointer) (s : state) : state :=
  mkState (this s) d (ref_cnt_ s) (trace s).
Definition set_ref_cnt_ (n : Z) (s : state) : state :=
  mkState (this s) (db_ s) n (trace s).
Definition emit (e : event) (s : state) : state :=
  mkState (this s) (db_ s) (ref_cnt_ s) (trace s ++ [e]).

(** [static cmudb::KVTable *db_ = nullptr; static int ref_cnt_ = 0;] *)
Definition initial (o : BTreeDB) : state := mkState o nullptr 0 [].

(** A member function: from the state before the call to its outcome and the
    state it leaves (where it stopped, when it does not return). *)
Definition M (A : Type) : Type := state → outcome A * state.

Global Instance M_ret : MRet M := λ A a s, (Done a, s).
Global Instance M_bind : MBind M := λ A B f m s,
  match m s with
  | (Done a, s') => f a s'
  | (Thrown e, s') => (Thrown e, s')
  | (AssertionFailed, s') => (AssertionFailed, s')
  | (Undefined, s') => (Undefined, s')
  | (OutOfFuel, s') => (OutOfFuel, s')
  end.

Definition lift {A} (o : outcome A) : M A := λ s, (o, s).
Definition get_state : M state := λ s, (Done s, s).
Definition modify (f : state → state) : M unit := λ s, (Done tt, f s).
Definition throw {A} (e : exception) : M A := lift (Thrown e).

(** [db_->...]: the call needs an engine behind the pointer. *)
Definition deref_db : M KVTable := λ s,
  match db_ s with
  | live t => (Done t, s)
  | _ => (Undefined, s)
  end.

(** ** Properties and [std::stoi] *)

(** Modelled from the spec: [utils::Properties::GetProperty] of
    [core/properties.h], which is not among the sources; configuration
    properties are looked up by name, and a property that was not configured
    takes the default passed to the lookup. *)
Definition GetProperty (props : gmap std_string std_string)
    (key default_value : std_string) : std_string :=
  default default_value (props !! key).

Definition PROP_NAME : std_string := list_byte_of_string "btree.dbname".
Definition PROP_NAME_DEFAULT : std_string := [].
Definition POOL_SIZE_NAME : std_string := list_byte_of_string "btree.pool_size".
Definition POOL_SIZE_NAME_DEFAULT : std_string := list_byte_of_string "134217728".

Definition isspace (b : byte) : bool :=
  let c := Z_of_byte b in (c =? 32) || ((9 <=? c) && (c <=? 13)).

Fixpoint skip_space (s : std_string) : std_string :=
  match s with
  | b :: s' => if isspace b then skip_space s' else s
  | [] => []
  end.

Definition digit (b : byte) : option Z :=
  let c := Z_of_byte b in
  if (48 <=? c) && (c <=? 57) then Some (c - 48) else None.

Fixpoint digits (acc : Z) (s : std_string) : Z :=
  match s with
  | b :: s' => match digit b with
               | Some d => digits (10 * acc + d) s'
               | None => acc
               end
  | [] => acc
  end.

(** [std::stoi(s)] (base 10): leading white space, an optional sign, then the
    longest run of digits; [std::invalid_argument] without a digit,
    [std::out_of_range] when the number is no [int]. *)
Definition stoi (s : std_string) : outcome Z :=
  let s := skip_space s in
  let '(negative, s) :=
    match s with
    | b :: s' => if decide (b = "-"%byte) then (true, s')
                 else if decide (b = "+"%byte) then (false, s')
                 else (false, s)
    | [] => (false, [])
    end in
  match s with
  | b :: _ =>
    match digit b with
    | Some _ =>
      let n := digits 0 s in
      let n := if negative then - n else n in
      if (n <? - 2 ^ 31) || (2 ^ 31 - 1 <? n) then Thrown out_of_range
      else Done n
    | None => Thrown invalid_argument
    end
  | [] => Thrown invalid_argument
  end.

Section Adapter.
Context `{!Build}.

(** ** Init (lines 34-59) *)
Definition Init : M unit :=
  s ← get_state;
  let props := props_ (this s) in
  fieldcount ← lift (stoi (GetProperty props FIELD_COUNT_PROPERTY FIELD_COUNT_DEFAULT));
  _ ← modify (set_this (mkBTreeDB props fieldcount));
  _ ← (if decide (ref_cnt_ s = 2 ^ 31 - 1) then lift Undefined
       else modify (set_ref_cnt_ (ref_cnt_ s + 1)));
  match db_ s with
  | live _ | dangling => mret tt
  | nullptr =>
    let db_path := GetProperty props PROP_NAME PROP_NAME_DEFAULT in
    if decide (db_path = []) then
      throw (Exception (list_byte_of_string "BTree db path is missing"))
    else
      pool_size ← lift (stoi (GetProperty props POOL_SIZE_NAME POOL_SIZE_NAME_DEFAULT));
      if decide (PAGE_SIZE = 0) then lift Undefined
      else
        let page_num := pool_size ÷ PAGE_SIZE in
        _ ← modify (emit (Opened db_path page_num));
        modify (set_db_ (live (mkKVTable db_path page_num (durable db_path))))
  end.

(** ** Cleanup (lines 61-67) *)
Definition Cleanup : M unit :=
  s ← get_state;
  _ ← (if decide (ref_cnt_ s = - 2 ^ 31) then lift Undefined
       else modify (set_ref_cnt_ (ref_cnt_ s - 1)));
  if decide (ref_cnt_ s - 1 = 0) then
    match db_ s with
    | nullptr => mret tt
    | live _ => _ ← modify (emit Closed); modify (set_db_ dangling)
    | dangling => lift Undefined
    end
  else mret tt.

(** The decode both readers perform on a stored buffer (lines 137-142 and
    158-163); [fields] is [None] for a null pointer. *)
Definition decode_stored (fieldcount : Z) (fields : option (list std_string))
    (result : list Field) (data : std_string) : outcome (list Field) :=
  match fields with
  | Some fields => DeserializeRowFilter result data fields
  | None =>
    result ← DeserializeRow result data;
    _ ← assert (bool_decide (Z.of_nat (length result) = fieldcount mod 2 ^ 64));
    Done result
  end.

(** ** ReadSingle (lines 129-144) *)
Definition ReadSingle (table key : std_string)
    (fields : option (list std_string)) (result : list Field)
  : M (Status * list Field) :=
  s ← get_state;
  db ← deref_db;
  match Get db key with
  | None => mret (kNotFound, result)
  | Some data =>
    result ← lift (decode_stored (fieldcount_ (this s)) fields result data);
    mret (kOK, result)
  end.

(** ** ScanSingle (lines 146-166) *)
Fixpoint ScanSingle_loop (it : list entry) (i len : Z)
    (fields : option (list std_string)) (result : list (list Field))
  : M (list (list Field)) :=
  match it with
  | [] => mret result
  | e :: it =>
    if i <? len then
      s ← get_state;
      values ← lift (decode_stored (fieldcount_ (this s)) fields [] e.2);
      ScanSingle_loop it (i + 1) len fields (result ++ [values])
    else mret result
  end.

Definition ScanSingle (table key : std_string) (len : Z)
    (fields : option (list std_string)) (result : list (list Field))
  : M (Status * list (list Field)) :=
  db ← deref_db;
  result ← ScanSingle_loop (Seek db key) 0 len fields result;
  mret (kOK, result).

(** ** InsertSingle (lines 173-179) and UpdateSingle (lines 168-171) *)
Definition InsertSingle (table key : std_string) (values : list Field)
  : M Status :=
  let data := SerializeRow values [] in
  db ← deref_db;
  _ ← modify (set_db_ (live (Put db key data)));
  mret kOK.

Definition UpdateSingle (table key : std_string) (values : list Field)
  : M Status :=
  InsertSingle table key values.

(** ** DeleteSingle (lines 181-184) *)
Definition DeleteSingle (table key : std_string) : M Status :=
  mret kOK.

(** ** The public members of [btree_db.h], through the method pointers that
    [Init] has set *)
Definition Read := ReadSingle.
Definition Scan := ScanSingle.
Definition Update := UpdateSingle.
Definition Insert := InsertSingle.
Definition Delete := DeleteSingle.
End Adapter.

(** ** Vocabulary of the properties *)

(** A field whose two lengths survive the conversion to [uint32_t]. *)
Definition fits (f : Field) : Prop :=
  Z.of_nat (length (name f)) < 2 ^ 32 ∧ Z.of_nat (length (value f)) < 2 ^ 32.

(** The ordered merge of a row with a list of requested names: a field is kept
    when its name is the next requested one, which is then consumed. *)
Fixpoint merge_select (row : list Field) (requested : list std_string)
  : list Field :=
  match row, requested with
  | [], _ => []
  | _, [] => []
  | f :: row', wanted :: requested' =>
    if decide (wanted = name f) then f :: merge_select row' requested'
    else merge_select row' requested
  end.

(** The stored entries from [key] on. *)
Definition entries_from (t : KVTable) (key : std_string)
  : gmap std_string std_string :=
  filter (λ e : entry, key_le key e.1) (entries t).

(** Entries in strictly ascending order of their keys. *)
Definition ascending (l : list entry) : Prop :=
  StronglySorted (λ a b : entry, lexico a.1 b.1) l.

(** The call of a member function on the object [o]. *)
Definition on {A} (o : BTreeDB) (m : M A) : M A := λ s, m (set_this o s).

(** The configured storage path of an adapter. *)
Definition db_path (o : BTreeDB) : std_string :=
  GetProperty (props_ o) PROP_NAME PROP_NAME_DEFAULT.

(** A configuration [Init] accepts: the field count and the pool size are
    numbers and there is a storage path. *)
Definition valid_configuration `{!Build} (o : BTreeDB) (fieldcount pool_size : Z)
  : Prop :=
  stoi (GetProperty (props_ o) FIELD_COUNT_PROPERTY FIELD_COUNT_DEFAULT)
    = Done fieldcount ∧
  db_path o ≠ [] ∧
  stoi (GetProperty (props_ o) POOL_SIZE_NAME POOL_SIZE_NAME_DEFAULT)
    = Done pool_size.

(** [Init] called once on each of the objects, in order. *)
Fixpoint Init_each `{!Build} (os : list BTreeDB) : M unit :=
  match os with
  | [] => mret tt
  | o :: os => _ ← on o Init; Init_each os
  end.

(** [Cleanup] called [n] times. *)
Fixpoint Cleanup_times (n : nat) : M unit :=
  match n with
  | O => mret tt
  | S n => _ ← Cleanup; Cleanup_times n
  end.

(** The state in which [Init] leaves the receiver and the counter once the
    field count has been read. *)
Definition counted (fieldcount : Z) (s : state) : state :=
  set_ref_cnt_ (ref_cnt_ s + 1)
    (set_this (mkBTreeDB (props_ (this s)) fieldcount) s).

Definition missing_path : exception :=
  Exception (list_byte_of_string "BTree db path is missing").

(** A call of a member function on an object, as a worker thread makes it. *)
Inductive call :=
| call_Init (o : BTreeDB)
| call_Cleanup (o : BTreeDB)
| call_Read (o : BTreeDB) (table key : std_string)
            (fields : option (list std_string)) (result : list Field)
| call_Scan (o : BTreeDB) (table key : std_string) (len : Z)
            (fields : option (list std_string)) (result : list (list Field))
| call_Update (o : BTreeDB) (table key : std_string) (values : list Field)
| call_Insert (o : BTreeDB) (table key : std_string) (values : list Field)
| call_Delete (o : BTreeDB) (table key : std_string).

(** The state a call leaves. *)
Definition state_after `{!Build} (c : call) (s : state) : state :=
  match c with
  | call_Init o => (on o Init s).2
  | call_Cleanup o => (on o Cleanup s).2
  | call_Read o table key fields result => (on o (Read table key fields result) s).2
  | call_Scan o table key len fields result =>
    (on o (Scan table key len fields result) s).2
  | call_Update o table key values => (on o (Update table key values) s).2
  | call_Insert o table key values => (on o (Insert table key values) s).2
  | call_Delete o table key => (on o (Delete table key) s).2
  end.

(** A call after which the process goes on: it returned, or it left by an
    exception, which its caller can catch.  A failed [assert] has aborted the
    process, and after undefined behaviour nothing can be said. *)
Definition survives {A} (o : outcome A) : bool :=
  match o with
  | Done _ | Thrown _ => true
  | AssertionFailed | Undefined | OutOfFuel => false
  end.

Definition call_survives `{!Build} (c : call) (s : state) : bool :=
  match c with
  | call_Init o => survives (on o Init s).1
  | call_Cleanup o => survives (on o Cleanup s).1
  | call_Read o table key fields result =>
    survives (on o (Read table key fields result) s).1
  | call_Scan o table key len fields result =>
    survives (on o (Scan table key len fields result) s).1
  | call_Update o table key values => survives (on o (Update table key values) s).1
  | call_Insert o table key values => survives (on o (Insert table key values) s).1
  | call_Delete o table key => survives (on o (Delete table key) s).1
  end.

(** The state after a sequence of calls, the first one first, as long as the
    process goes on: [None] as soon as one call has aborted the process or
    run into undefined behaviour. *)
Fixpoint run_calls `{!Build} (cs : list call) (s : state) : option state :=
  match cs with
  | [] => Some s
  | c :: cs => if call_survives c s then run_calls cs (state_after c s) else None
  end.

(** How the handle and the record of constructor and destructor calls go
    together. *)
Definition handle_matches_trace (s : state) : Prop :=
  match db_ s with
  | nullptr => trace s = []
  | live t => trace s = [Opened (table_path t) (table_pages t)]
  | dangling => ∃ path page_num, trace s = [Opened path page_num; Closed]
  end.

(** ** Concrete builds and data for the examples *)

Definition bytes (s : string) : std_string := list_byte_of_string s.

Definition debug_build : Build :=
  {| NDEBUG := false; PAGE_SIZE := 4096;
     FIELD_COUNT_PROPERTY := bytes "fieldcount"; FIELD_COUNT_DEFAULT := bytes "10";
     durable := λ _, ∅ |}.

Definition release_build : Build :=
  {| NDEBUG := true; PAGE_SIZE := 4096;
     FIELD_COUNT_PROPERTY := bytes "fieldcount"; FIELD_COUNT_DEFAULT := bytes "10";
     durable := λ _, ∅ |}.

Definition sample_row : list Field :=
  [ mkField (bytes "field0") (bytes "alpha");
    mkField (bytes "field1") [x00; xff; x00];
    mkField (bytes "field2") [] ].

Definition sample_props : gmap std_string std_string :=
  {[ PROP_NAME := bytes "/tmp/btree.db"; bytes "fieldcount" := bytes "3" ]}.

Definition sample_table : KVTable :=
  Put (Put (Put (mkKVTable (bytes "/tmp/btree.db") 32768 ∅)
         (bytes "user2") (SerializeRow sample_row []))
         (bytes "user1") (SerializeRow sample_row []))
         (bytes "user3") (SerializeRow sample_row []).

Definition sample_db : BTreeDB := mkBTreeDB sample_props 0.

(** An adapter without a configured storage path. *)
Definition pathless_db : BTreeDB := mkBTreeDB ∅ 0.

(** One adapter, configured for three fields, on an open engine. *)
Definition sample_state : state :=
  mkState (mkBTreeDB sample_props 3) (live sample_table) 1
          [Opened (bytes "/tmp/btree.db") 32768].

(** A row with one value of exactly 2^32 bytes (4 GiB), all zero. *)
Definition four_GiB : nat := Z.to_nat (2 ^ 32).
Definition huge_row : list Field :=
  [ mkField (bytes "a") (replicate four_GiB x00) ].

(** * Properties *)

(** ** The length prefix *)

Lemma Z_of_byte_of_Z (z : Z) : Z_of_byte (byte_of_Z z) = Z.land z 255.
Proof.
  unfold Z_of_byte, byte_of_Z.
  assert (0 ≤ Z.land z 255 < 256) as Hrange.
  { change 255 with (Z.ones 8). rewrite Z.land_ones by lia.
    apply Z.mod_pos_bound. lia. }
  destruct (Byte.of_N (Z.to_N (Z.land z 255))) as [b|] eqn:Hb.
  - apply Byte.to_of_N in Hb. rewrite Hb. lia.
  - apply Byte.of_N_None_iff in Hb. lia.
Qed.

Lemma testbit_low_byte (z n : Z) :
  0 ≤ n → Z.testbit (Z.land z 255) n = Z.testbit z n && (n <? 8).
Proof.
  intros Hn. rewrite Z.land_spec. change 255 with (Z.ones 8).
  by rewrite Z.testbit_ones_nonneg by lia.
Qed.

Lemma uint32_of_bytes_uint32_bytes (len : Z) :
  0 ≤ len < 2 ^ 32 →
  uint32_of_bytes (byte_of_Z len) (byte_of_Z (Z.shiftr len 8))
    (byte_of_Z (Z.shiftr len 16)) (byte_of_Z (Z.shiftr len 24)) = len.
Proof.
  intros Hlen. unfold uint32_of_bytes. rewrite !Z_of_byte_of_Z.
  apply Z.bits_inj'. intros n Hn.
  rewrite !Z.lor_spec, !Z.shiftl_spec, testbit_low_byte by lia.
  destruct (Z.ltb_spec n 8).
  { rewrite (Z.testbit_neg_r _ (n - 8)), (Z.testbit_neg_r _ (n - 16)),
      (Z.testbit_neg_r _ (n - 24)) by lia.
    by rewrite !orb_false_r, andb_true_r. }
  rewrite andb_false_r, orb_false_l, testbit_low_byte, Z.shiftr_spec by lia.
  replace (n - 8 + 8) with n by lia.
  destruct (Z.ltb_spec (n - 8) 8).
  { rewrite (Z.testbit_neg_r _ (n - 16)), (Z.testbit_neg_r _ (n - 24)) by lia.
    by rewrite !orb_false_r, andb_true_r. }
  rewrite andb_false_r, orb_false_l, testbit_low_byte, Z.shiftr_spec by lia.
  replace (n - 16 + 16) with n by lia.
  destruct (Z.ltb_spec (n - 16) 8).
  { rewrite (Z.testbit_neg_r _ (n - 24)) by lia.
    by rewrite !orb_false_r, andb_true_r. }
  rewrite andb_false_r, orb_false_l, testbit_low_byte, Z.shiftr_spec by lia.
  replace (n - 24 + 24) with n by lia.
  destruct (Z.ltb_spec (n - 24) 8).
  { by rewrite andb_true_r. }
  rewrite andb_false_r. symmetry.
  destruct (decide (len = 0)) as [->|]; [apply Z.bits_0|].
  apply Z.bits_above_log2; [lia|].
  apply Z.log2_lt_pow2; [lia|].
  assert (2 ^ 32 ≤ 2 ^ n) by (apply Z.pow_le_mono_r; lia). lia.
Qed.

Lemma read_uint32_uint32_bytes (len : Z) (p : std_string) :
  0 ≤ len < 2 ^ 32 →
  read_uint32 (uint32_bytes len ++ p) = Done (len, p).
Proof.
  intros Hlen. unfold uint32_bytes. cbn [app read_uint32].
  by rewrite uint32_of_bytes_uint32_bytes.
Qed.

Lemma read_string_app (s p : std_string) (len : Z) :
  len = Z.of_nat (length s) →
  read_string (s ++ p) len = Done (s, p).
Proof.
  intros ->. unfold read_string. rewrite length_app, Nat2Z.id.
  destruct (Z.ltb_spec (Z.of_nat (length s + length p)) (Z.of_nat (length s)));
    [lia|].
  by rewrite take_app_length, drop_app_length.
Qed.

Lemma uint32_of_size_range (n : nat) : 0 ≤ uint32_of_size n < 2 ^ 32.
Proof. unfold uint32_of_size. apply Z.mod_pos_bound. lia. Qed.

Lemma uint32_of_size_small (n : nat) :
  Z.of_nat n < 2 ^ 32 → uint32_of_size n = Z.of_nat n.
Proof. intros Hn. unfold uint32_of_size. apply Z.mod_small. lia. Qed.

(** ** The shape of an encoded row *)

Example SerializeRow_layout :
  SerializeRow [mkField (bytes "ab") (bytes "c")] []
  = [x02; x00; x00; x00; x61; x62; x01; x00; x00; x00; x63].
Proof. reflexivity. Qed.

Example stoi_pool_size_default : stoi POOL_SIZE_NAME_DEFAULT = Done 134217728.
Proof. reflexivity. Qed.

Example stoi_stops_at_garbage : stoi (bytes "  -12x") = Done (-12).
Proof. reflexivity. Qed.

Example stoi_no_digit : stoi (bytes "x12") = Thrown invalid_argument.
Proof. reflexivity. Qed.

Lemma SerializeField_app (data : std_string) (f : Field) :
  SerializeField data f = data ++ SerializeField [] f.
Proof. unfold SerializeField. cbn [app]. by rewrite <- !(assoc_L (++)). Qed.

Lemma SerializeRow_app (values : list Field) (data : std_string) :
  SerializeRow values data = data ++ SerializeRow values [].
Proof.
  unfold SerializeRow. revert data.
  induction values as [|f values IH]; intros data; cbn [foldl].
  - by rewrite app_nil_r.
  - rewrite IH, (IH (SerializeField [] f)), SerializeField_app.
    by rewrite <- (assoc_L (++)).
Qed.

Lemma SerializeRow_cons (f : Field) (values : list Field) :
  SerializeRow (f :: values) [] = SerializeField [] f ++ SerializeRow values [].
Proof. unfold SerializeRow at 1. cbn [foldl]. apply SerializeRow_app. Qed.

Lemma SerializeField_eq (f : Field) :
  SerializeField [] f =
  uint32_bytes (uint32_of_size (length (name f))) ++ name f ++
  uint32_bytes (uint32_of_size (length (value f))) ++ value f.
Proof. unfold SerializeField. cbn [app]. by rewrite <- !(assoc_L (++)). Qed.

Lemma length_SerializeField (f : Field) :
  length (SerializeField [] f) = (8 + length (name f) + length (value f))%nat.
Proof. rewrite SerializeField_eq, !length_app. cbn [uint32_bytes length]. lia. Qed.

Lemma length_SerializeRow (values : list Field) :
  (8 * length values ≤ length (SerializeRow values []))%nat.
Proof.
  induction values as [|f values IH]; [cbn; lia|].
  rewrite SerializeRow_cons, length_app, length_SerializeField. cbn [length]. lia.
Qed.

(** ** Sequencing of outcomes *)

Lemma bind_Done {A B} (m : outcome A) (f : A → outcome B) (b : B) :
  m ≫= f = Done b → ∃ a, m = Done a ∧ f a = Done b.
Proof. destruct m; try done. cbn. eauto. Qed.

Lemma bind_fuel {A B} (m : outcome A) (f : A → outcome B) :
  m ≠ OutOfFuel → (∀ a, f a ≠ OutOfFuel) → m ≫= f ≠ OutOfFuel.
Proof. destruct m; try done. cbn. auto. Qed.

Lemma read_uint32_Done (p p' : std_string) (len : Z) :
  read_uint32 p = Done (len, p') → length p = (4 + length p')%nat.
Proof. destruct p as [|b0 [|b1 [|b2 [|b3 p1]]]]; try done. by intros [= _ <-]. Qed.

Lemma read_uint32_fuel (p : std_string) : read_uint32 p ≠ OutOfFuel.
Proof. by destruct p as [|b0 [|b1 [|b2 [|b3 p1]]]]. Qed.

Lemma read_string_Done (p p' s : std_string) (len : Z) :
  read_string p len = Done (s, p') → (length p' ≤ length p)%nat.
Proof.
  unfold read_string. case_match; [done|]. intros [= _ <-].
  rewrite length_drop. lia.
Qed.

Lemma read_string_fuel (p : std_string) (len : Z) : read_string p len ≠ OutOfFuel.
Proof. unfold read_string. by case_match. Qed.

Section CodecProperties.
Context `{!Build}.

Lemma assert_true (c : bool) : c = true → assert c = Done tt.
Proof. intros ->. unfold assert. by destruct NDEBUG. Qed.

(** One turn of either loop on a buffer that starts with a length-prefixed
    name and a length-prefixed value. *)
Lemma read_field_frame (a b : Z) (n v rest : std_string) :
  0 ≤ a < 2 ^ 32 → 0 ≤ b < 2 ^ 32 →
  a = Z.of_nat (length n) → b = Z.of_nat (length v) →
  read_field (uint32_bytes a ++ n ++ uint32_bytes b ++ v ++ rest)
  = Done (mkField n v, rest).
Proof.
  intros Ha Hb Hn Hv. unfold read_field.
  rewrite assert_true by (apply bool_decide_eq_true; cbn [uint32_bytes app length]; lia).
  cbn [mbind outcome_bind].
  rewrite read_uint32_uint32_bytes by done. cbn [mbind outcome_bind].
  rewrite read_string_app by done. cbn [mbind outcome_bind].
  rewrite read_uint32_uint32_bytes by done. cbn [mbind outcome_bind].
  rewrite read_string_app by done. done.
Qed.

Lemma read_field_SerializeField (f : Field) (rest : std_string) :
  fits f → read_field (SerializeField [] f ++ rest) = Done (f, rest).
Proof.
  intros [Hn Hv]. rewrite SerializeField_eq, <- !(assoc_L (++)).
  rewrite read_field_frame.
  - by destruct f.
  - apply uint32_of_size_range.
  - apply uint32_of_size_range.
  - by apply uint32_of_size_small.
  - by apply uint32_of_size_small.
Qed.

(** Every turn moves the cursor by at least the two length prefixes. *)
Lemma read_field_consumes (p p' : std_string) (f : Field) :
  read_field p = Done (f, p') → (length p' + 8 ≤ length p)%nat.
Proof.
  unfold read_field.
  intros (_ & _ & H1)%bind_Done.
  apply bind_Done in H1 as ([len1 p1] & Hlen1%read_uint32_Done & H2).
  apply bind_Done in H2 as ([s1 p2] & Hs1%read_string_Done & H3).
  apply bind_Done in H3 as ([len2 p3] & Hlen2%read_uint32_Done & H4).
  apply bind_Done in H4 as ([s2 p4] & Hs2%read_string_Done & [= _ <-]).
  lia.
Qed.

Lemma read_field_fuel (p : std_string) : read_field p ≠ OutOfFuel.
Proof.
  unfold read_field. apply bind_fuel; [unfold assert; by repeat case_match|].
  intros _. apply bind_fuel; [apply read_uint32_fuel|]. intros [len1 p1].
  apply bind_fuel; [apply read_string_fuel|]. intros [s1 p2].
  apply bind_fuel; [apply read_uint32_fuel|]. intros [len2 p3].
  apply bind_fuel; [apply read_string_fuel|]. by intros [s2 p4].
Qed.

(** *** DeserializeRow *)

Lemma DeserializeRow_loop_step (fuel : nat) (values : list Field) (p : std_string) :
  p ≠ [] →
  DeserializeRow_loop (S fuel) values p
  = '(f, p') ← read_field p; DeserializeRow_loop fuel (values ++ [f]) p'.
Proof. by destruct p. Qed.

Lemma SerializeField_not_nil (f : Field) (rest : std_string) :
  SerializeField [] f ++ rest ≠ [].
Proof. by rewrite SerializeField_eq. Qed.

Lemma DeserializeRow_loop_fuel (fuel : nat) (values : list Field) (p : std_string) :
  (length p ≤ fuel)%nat → DeserializeRow_loop fuel values p ≠ OutOfFuel.
Proof.
  revert values p. induction fuel as [|fuel IH]; intros values p Hfuel.
  - destruct p; [done|cbn [length] in Hfuel; lia].
  - destruct p as [|b p]; [done|]. cbn [DeserializeRow_loop].
    pose proof (read_field_fuel (b :: p)) as Hfield.
    destruct (read_field (b :: p)) as [[f p']| | | |] eqn:Hread; try done.
    cbn [mbind outcome_bind]. apply IH.
    apply read_field_consumes in Hread. lia.
Qed.

Lemma DeserializeRow_total (values : list Field) (data : std_string) :
  DeserializeRow values data ≠ OutOfFuel.
Proof. by apply DeserializeRow_loop_fuel. Qed.

(** What has been pushed stays: the result extends [values]. *)
Lemma DeserializeRow_loop_prefix (fuel : nat) (values out : list Field)
    (p : std_string) :
  DeserializeRow_loop fuel values p = Done out → values `prefix_of` out.
Proof.
  revert values p. induction fuel as [|fuel IH]; intros values p.
  - destruct p; [|done]. by intros [= ->].
  - destruct p as [|b p]; [by intros [= ->]|]. cbn [DeserializeRow_loop].
    destruct (read_field (b :: p)) as [[f p']| | | |]; try done.
    cbn [mbind outcome_bind]. intros Hout%IH.
    etrans; [|exact Hout]. by apply prefix_app_r.
Qed.

Lemma DeserializeRow_loop_SerializeRow (fuel : nat) (values row : list Field) :
  (length row ≤ fuel)%nat → Forall fits row →
  DeserializeRow_loop fuel values (SerializeRow row []) = Done (values ++ row).
Proof.
  revert fuel values. induction row as [|f row IH]; intros fuel values Hfuel Hfits.
  - destruct fuel; cbn; by rewrite app_nil_r.
  - destruct fuel as [|fuel]; [cbn [length] in Hfuel; lia|].
    apply Forall_cons in Hfits as [Hf Hrow].
    rewrite SerializeRow_cons.
    rewrite DeserializeRow_loop_step by apply SerializeField_not_nil.
    rewrite read_field_SerializeField by done. cbn [mbind outcome_bind].
    rewrite IH by (cbn [length] in Hfuel; lia || done).
    by rewrite <- (assoc_L (++)).
Qed.

Lemma DeserializeRow_SerializeRow (values row : list Field) :
  Forall fits row →
  DeserializeRow values (SerializeRow row []) = Done (values ++ row).
Proof.
  intros Hfits. apply DeserializeRow_loop_SerializeRow; [|done].
  pose proof (length_SerializeRow row). lia.
Qed.
End CodecProperties.

(** ** The ordered merge *)

Lemma merge_select_sublist (row : list Field) (requested : list std_string) :
  merge_select row requested `sublist_of` row.
Proof.
  revert requested. induction row as [|f row IH]; intros [|wanted requested];
    cbn [merge_select]; try by apply sublist_nil_l.
  case_decide; [by apply sublist_skip|by apply sublist_cons].
Qed.

Lemma merge_select_names_prefix (row : list Field) (requested : list std_string) :
  name <$> merge_select row requested `prefix_of` requested.
Proof.
  revert requested. induction row as [|f row IH]; intros [|wanted requested];
    cbn [merge_select fmap list_fmap]; try by apply prefix_nil.
  case_decide as Hw; [|apply IH]. cbn [fmap list_fmap]. subst wanted.
  apply prefix_cons, IH.
Qed.

Lemma merge_select_length (row : list Field) (requested : list std_string) :
  (length (merge_select row requested) ≤ length requested)%nat.
Proof.
  rewrite <- (length_fmap name). apply prefix_length, merge_select_names_prefix.
Qed.

(** The merge finds every requested name as soon as the requested names occur
    in the row in that order. *)
Lemma merge_select_names (row : list Field) (requested : list std_string) :
  requested `sublist_of` (name <$> row) →
  name <$> merge_select row requested = requested.
Proof.
  revert requested. induction row as [|f row IH]; intros requested Hsub.
  - apply sublist_nil_r in Hsub as ->. done.
  - destruct requested as [|wanted requested]; [done|].
    cbn [merge_select]. cbn [fmap list_fmap] in Hsub.
    case_decide as Hw.
    + cbn [fmap list_fmap]. subst wanted. f_equal. apply IH.
      apply sublist_cons_r in Hsub as [Hsub|(l' & [= <-] & Hsub)]; [|done].
      etrans; [|exact Hsub]. by apply sublist_cons.
    + apply IH.
      apply sublist_cons_r in Hsub as [Hsub|(l' & [= ? <-] & Hsub)]; [done|].
      congruence.
Qed.

Lemma merge_select_complete (row : list Field) (requested : list std_string) :
  length (merge_select row requested) = length requested ↔
  requested `sublist_of` (name <$> row).
Proof.
  split.
  - intros Hlen. pose proof (merge_select_names_prefix row requested) as Hpre.
    apply prefix_length_eq in Hpre; [|rewrite length_fmap; lia].
    rewrite <- Hpre. apply fmap_sublist, merge_select_sublist.
  - intros Hsub%merge_select_names.
    by rewrite <- Hsub at 2; rewrite length_fmap.
Qed.

Section FilterProperties.
Context `{!Build}.

Lemma DeserializeRowFilter_loop_end (fuel : nat) (values : list Field)
    (p : std_string) :
  DeserializeRowFilter_loop fuel values p [] = Done values.
Proof. by destruct fuel, p. Qed.

Lemma DeserializeRowFilter_loop_step (fuel : nat) (values : list Field)
    (p : std_string) (wanted : std_string) (filter : list std_string) :
  p ≠ [] →
  DeserializeRowFilter_loop (S fuel) values p (wanted :: filter)
  = '(f, p') ← read_field p;
    if decide (wanted = name f)
    then DeserializeRowFilter_loop fuel (values ++ [f]) p' filter
    else DeserializeRowFilter_loop fuel values p' (wanted :: filter).
Proof. by destruct p. Qed.

Lemma DeserializeRowFilter_loop_fuel (fuel : nat) (values : list Field)
    (p : std_string) (filter : list std_string) :
  (length p ≤ fuel)%nat →
  DeserializeRowFilter_loop fuel values p filter ≠ OutOfFuel.
Proof.
  revert values p filter.
  induction fuel as [|fuel IH]; intros values p filter Hfuel.
  - destruct p; [by destruct filter|cbn [length] in Hfuel; lia].
  - destruct p as [|b p]; [by destruct filter|].
    destruct filter as [|wanted filter]; [done|].
    rewrite DeserializeRowFilter_loop_step by done.
    pose proof (read_field_fuel (b :: p)) as Hfield.
    destruct (read_field (b :: p)) as [[f p']| | | |] eqn:Hread; try done.
    cbn [mbind outcome_bind]. apply read_field_consumes in Hread.
    case_decide; apply IH; lia.
Qed.

Lemma DeserializeRowFilter_total (values : list Field) (data : std_string)
    (fields : list std_string) :
  DeserializeRowFilter values data fields ≠ OutOfFuel.
Proof.
  unfold DeserializeRowFilter, DeserializeRowFilter_range.
  apply bind_fuel; [by apply DeserializeRowFilter_loop_fuel|].
  intros out. apply bind_fuel; [unfold assert; by repeat case_match|done].
Qed.

(** On an encoded row the loop is the ordered merge. *)
Lemma DeserializeRowFilter_loop_SerializeRow (fuel : nat)
    (values row : list Field) (requested : list std_string) :
  (length row ≤ fuel)%nat → Forall fits row →
  DeserializeRowFilter_loop fuel values (SerializeRow row []) requested
  = Done (values ++ merge_select row requested).
Proof.
  revert fuel values requested.
  induction row as [|f row IH]; intros fuel values requested Hfuel Hfits.
  - destruct fuel, requested; cbn; by rewrite app_nil_r.
  - destruct requested as [|wanted requested].
    { by rewrite DeserializeRowFilter_loop_end, app_nil_r. }
    destruct fuel as [|fuel]; [cbn [length] in Hfuel; lia|].
    apply Forall_cons in Hfits as [Hf Hrow].
    rewrite SerializeRow_cons.
    rewrite DeserializeRowFilter_loop_step by apply SerializeField_not_nil.
    rewrite read_field_SerializeField by done. cbn [mbind outcome_bind merge_select].
    cbn [length] in Hfuel.
    case_decide; rewrite IH by (lia || done); [|done].
    by rewrite <- (assoc_L (++)).
Qed.

Lemma DeserializeRowFilter_SerializeRow (values row : list Field)
    (requested : list std_string) :
  Forall fits row →
  DeserializeRowFilter values (SerializeRow row []) requested
  = (_ ← assert (bool_decide (length (values ++ merge_select row requested)
                              = length requested));
     Done (values ++ merge_select row requested)).
Proof.
  intros Hfits. unfold DeserializeRowFilter, DeserializeRowFilter_range.
  rewrite DeserializeRowFilter_loop_SerializeRow; [done| |done].
  pose proof (length_SerializeRow row). lia.
Qed.
End FilterProperties.

(** ** A value of 2^32 bytes

    [uint32_t len = field.value.size()] stores 0 for such a value, so the
    decoder reads an empty value and takes the value's bytes for the next
    fields. *)
Section WrappedLength.
Context `{!Build}.
Variables (n : nat) (nm : std_string).
Hypothesis Hn : Z.of_nat n = 2 ^ 32.
Hypothesis Hnm : Z.of_nat (length nm) < 2 ^ 32.

Lemma read_field_wrapped_value :
  read_field (SerializeRow [mkField nm (replicate n x00)] [])
  = Done (mkField nm [], replicate n x00).
Proof.
  rewrite SerializeRow_cons. change (SerializeRow [] []) with (@nil byte).
  rewrite app_nil_r, SerializeField_eq. cbn [name value].
  rewrite length_replicate.
  replace (uint32_of_size n) with 0
    by (unfold uint32_of_size; rewrite Hn; by rewrite Z.mod_same).
  change (replicate n x00) with ([] ++ replicate n x00) at 1.
  apply read_field_frame; [apply uint32_of_size_range|lia| |done].
  by apply uint32_of_size_small.
Qed.

Lemma wrapped_value_not_nil : SerializeRow [mkField nm (replicate n x00)] [] ≠ [].
Proof. rewrite SerializeRow_cons. apply SerializeField_not_nil. Qed.

Lemma replicate_wrapped_not_nil : replicate n x00 ≠ [].
Proof.
  intros Hnil%(f_equal length). rewrite length_replicate in Hnil.
  cbn [length] in Hnil. lia.
Qed.

Lemma wrapped_row_differs :
  [mkField nm []] ≠ [mkField nm (replicate n x00)].
Proof. intros [= Hvalue]. by apply replicate_wrapped_not_nil. Qed.

Lemma DeserializeRow_wrapped_value :
  DeserializeRow [] (SerializeRow [mkField nm (replicate n x00)] [])
  ≠ Done [mkField nm (replicate n x00)].
Proof.
  unfold DeserializeRow. intros Hdone.
  destruct (length (SerializeRow _ [])) as [|fuel] eqn:Hlen.
  { apply nil_length_inv in Hlen. by apply wrapped_value_not_nil in Hlen. }
  rewrite DeserializeRow_loop_step in Hdone by apply wrapped_value_not_nil.
  rewrite read_field_wrapped_value in Hdone. cbn [mbind outcome_bind] in Hdone.
  apply DeserializeRow_loop_prefix in Hdone as [k Hk].
  injection Hk as Hvalue _. by apply replicate_wrapped_not_nil.
Qed.

Lemma DeserializeRowFilter_wrapped_value :
  DeserializeRowFilter [] (SerializeRow [mkField nm (replicate n x00)] []) [nm]
  = Done [mkField nm []].
Proof.
  unfold DeserializeRowFilter, DeserializeRowFilter_range.
  destruct (length (SerializeRow _ [])) as [|fuel] eqn:Hlen.
  { apply nil_length_inv in Hlen. by apply wrapped_value_not_nil in Hlen. }
  rewrite DeserializeRowFilter_loop_step by apply wrapped_value_not_nil.
  rewrite read_field_wrapped_value. cbn [mbind outcome_bind name].
  rewrite decide_True by done.
  rewrite DeserializeRowFilter_loop_end. cbn [mbind outcome_bind app].
  by rewrite assert_true.
Qed.
End WrappedLength.

Lemma four_GiB_size : Z.of_nat four_GiB = 2 ^ 32.
Proof. unfold four_GiB. apply Z2Nat.id. by apply Z.pow_nonneg. Qed.

(** ** C1: decoding an encoded row *)

(** C1, amended: for every row whose names and values are each shorter than
    2^32 bytes, the unfiltered decode of its encoding returns the row itself:
    the same fields in the same order with the same bytes. *)
Theorem DeserializeRow_SerializeRow_id `{!Build} (row : list Field) :
  Forall fits row →
  DeserializeRow [] (SerializeRow row []) = Done row.
Proof. intros Hfits. by rewrite DeserializeRow_SerializeRow. Qed.

Lemma DeserializeRow_SerializeRow_id_witness :
  Forall fits sample_row ∧
  @DeserializeRow debug_build [] (SerializeRow sample_row []) = Done sample_row.
Proof.
  assert (Forall fits sample_row) as Hfits
    by (repeat constructor; vm_compute; reflexivity).
  split; [exact Hfits|].
  exact (@DeserializeRow_SerializeRow_id debug_build sample_row Hfits).
Defined.

(** C1 as stated fails at a row whose single value has 2^32 bytes: the decode
    of its encoding is not that row (its first field has an empty value). *)
Lemma DeserializeRow_SerializeRow_4GiB :
  @DeserializeRow debug_build [] (SerializeRow huge_row []) ≠ Done huge_row.
Proof.
  apply DeserializeRow_wrapped_value; [apply four_GiB_size|].
  vm_compute. reflexivity.
Qed.

(** ** C2: the filtered decode of an encoded row *)

(** C2, amended: for every row whose names and values are each shorter than
    2^32 bytes and every list of requested names that occurs, in that order,
    among the row's field names, the filtered decode of the row's encoding is
    the one-pass ordered merge of the stored fields with the requested names;
    it returns as many fields as were requested, their names are the requested
    names in the requested order, and the fields are fields of the row, in the
    row's order, with the values stored there. *)
Theorem DeserializeRowFilter_subsequence `{!Build} (row : list Field)
    (requested : list std_string) :
  Forall fits row →
  requested `sublist_of` (name <$> row) →
  DeserializeRowFilter [] (SerializeRow row []) requested
    = Done (merge_select row requested) ∧
  length (merge_select row requested) = length requested ∧
  name <$> merge_select row requested = requested ∧
  merge_select row requested `sublist_of` row.
Proof.
  intros Hfits Hsub.
  pose proof (proj2 (merge_select_complete row requested) Hsub) as Hlen.
  split_and!.
  - rewrite DeserializeRowFilter_SerializeRow by done. cbn [app].
    by rewrite assert_true by (by apply bool_decide_eq_true).
  - done.
  - by apply merge_select_names.
  - apply merge_select_sublist.
Qed.

Lemma DeserializeRowFilter_subsequence_witness :
  Forall fits sample_row ∧
  [bytes "field0"; bytes "field2"] `sublist_of` (name <$> sample_row) ∧
  @DeserializeRowFilter debug_build [] (SerializeRow sample_row [])
      [bytes "field0"; bytes "field2"]
    = Done [mkField (bytes "field0") (bytes "alpha"); mkField (bytes "field2") []].
Proof.
  assert (Forall fits sample_row) as Hfits
    by (repeat constructor; vm_compute; reflexivity).
  assert ([bytes "field0"; bytes "field2"] `sublist_of` (name <$> sample_row))
    as Hsub by (apply sublist_skip, sublist_cons, sublist_skip, sublist_nil).
  split_and!; [exact Hfits|exact Hsub|].
  exact (proj1 (@DeserializeRowFilter_subsequence debug_build sample_row
                  [bytes "field0"; bytes "field2"] Hfits Hsub)).
Defined.

(** C2 as stated fails at the row whose single value has 2^32 bytes: its name
    is requested, one field comes back, but with an empty value instead of the
    stored one. *)
Lemma DeserializeRowFilter_4GiB :
  [bytes "a"] `sublist_of` (name <$> huge_row) ∧
  @DeserializeRowFilter debug_build [] (SerializeRow huge_row []) [bytes "a"]
    = Done [mkField (bytes "a") []] ∧
  [mkField (bytes "a") []] ≠ huge_row.
Proof.
  split; [|split].
  - apply sublist_skip, sublist_nil.
  - apply DeserializeRowFilter_wrapped_value; [apply four_GiB_size|].
    vm_compute. reflexivity.
  - apply wrapped_row_differs, four_GiB_size.
Qed.

(** ** C3: a requested name that is never matched *)

(** C3, amended: for every row whose names and values are each shorter than
    2^32 bytes and every list of requested names that does not occur, in that
    order, among the row's field names, the filtered decode of the row's
    encoding collects fewer fields than requested and reports nothing to its
    caller: its final assertion stops the process in a build with assertions,
    and in an [NDEBUG] build it returns normally with the shorter result. *)
Theorem DeserializeRowFilter_unmatched `{!Build} (row : list Field)
    (requested : list std_string) :
  Forall fits row →
  ¬ requested `sublist_of` (name <$> row) →
  (length (merge_select row requested) < length requested)%nat ∧
  DeserializeRowFilter [] (SerializeRow row []) requested
    = if NDEBUG then Done (merge_select row requested) else AssertionFailed.
Proof.
  intros Hfits Hsub.
  assert (length (merge_select row requested) ≠ length requested) as Hlen
    by (by intros ?%merge_select_complete).
  pose proof (merge_select_length row requested).
  split; [lia|].
  rewrite DeserializeRowFilter_SerializeRow by done. cbn [app].
  unfold assert. rewrite bool_decide_eq_false_2 by done.
  by destruct NDEBUG.
Qed.

Lemma DeserializeRowFilter_unmatched_witness :
  Forall fits sample_row ∧
  ¬ [bytes "field1"; bytes "field0"] `sublist_of` (name <$> sample_row) ∧
  @DeserializeRowFilter debug_build [] (SerializeRow sample_row [])
      [bytes "field1"; bytes "field0"] = AssertionFailed.
Proof.
  assert (Forall fits sample_row) as Hfits
    by (repeat constructor; vm_compute; reflexivity).
  assert (¬ [bytes "field1"; bytes "field0"] `sublist_of` (name <$> sample_row))
    as Hsub.
  { intros Hlen%merge_select_complete. vm_compute in Hlen. discriminate Hlen. }
  split_and!; [exact Hfits|exact Hsub|].
  exact (proj2 (@DeserializeRowFilter_unmatched debug_build sample_row
                  [bytes "field1"; bytes "field0"] Hfits Hsub)).
Defined.

(** C3 as stated fails: "field1", "field0" are requested from a row that
    stores them in the other order.  In an [NDEBUG] build the filtered decode
    returns one field for the two requested, and Read hands it to its caller
    with status OK; in a build with assertions the process stops.  Neither
    reports an error to the caller. *)
Lemma DeserializeRowFilter_reports_nothing :
  let requested := [bytes "field1"; bytes "field0"] in
  let short := [mkField (bytes "field1") [x00; xff; x00]] in
  ¬ requested `sublist_of` (name <$> sample_row) ∧
  @DeserializeRowFilter release_build [] (SerializeRow sample_row []) requested
    = Done short ∧
  (length short < length requested)%nat ∧
  @Read release_build (bytes "usertable") (bytes "user1") (Some requested) []
      sample_state = (Done (kOK, short), sample_state) ∧
  @DeserializeRowFilter debug_build [] (SerializeRow sample_row []) requested
    = AssertionFailed.
Proof.
  cbv zeta. split_and!.
  - intros Hlen%merge_select_complete. vm_compute in Hlen. discriminate Hlen.
  - vm_compute. reflexivity.
  - cbn. lia.
  - vm_compute. reflexivity.
  - vm_compute. reflexivity.
Qed.

(** ** The engine *)

Global Instance key_le_refl : Reflexive key_le.
Proof. by left. Qed.

Global Instance key_le_trans : Transitive key_le.
Proof.
  intros a b c [->|Hab] [->|Hbc]; try by (left + right).
  right. by trans b.
Qed.

Global Instance key_le_total : Total key_le.
Proof.
  intros a b. destruct (trichotomyT lexico a b) as [[?|?]|?].
  - left. by right.
  - left. by left.
  - right. by right.
Qed.

Global Instance entry_le_trans : Transitive entry_le.
Proof. intros a b c. unfold entry_le. apply transitivity. Qed.

Global Instance entry_le_total : Total entry_le.
Proof. intros a b. unfold entry_le. apply total, _. Qed.

Lemma Get_Put (t : KVTable) (key data : std_string) :
  Get (Put t key data) key = Some data.
Proof. unfold Get, Put. cbn. apply lookup_insert_eq. Qed.

Lemma Seek_elem_of (t : KVTable) (key : std_string) (e : entry) :
  e ∈ Seek t key ↔ entries_from t key !! e.1 = Some e.2.
Proof.
  unfold Seek. rewrite merge_sort_Permutation.
  apply elem_of_map_to_list'.
Qed.

Lemma entries_from_lookup (t : KVTable) (key k data : std_string) :
  entries_from t key !! k = Some data ↔ Get t k = Some data ∧ key_le key k.
Proof. unfold entries_from, Get. by rewrite map_lookup_filter_Some. Qed.

Lemma Seek_length (t : KVTable) (key : std_string) :
  length (Seek t key) = size (entries_from t key).
Proof.
  unfold Seek. rewrite merge_sort_Permutation. apply length_map_to_list.
Qed.

Lemma sorted_distinct_ascending (l : list entry) :
  StronglySorted entry_le l → NoDup l.*1 → ascending l.
Proof.
  induction 1 as [|x l Hsorted IH Hhead]; intros Hnodup; [constructor|].
  cbn [fmap list_fmap] in Hnodup. apply NoDup_cons in Hnodup as [Hx Hnodup].
  constructor; [by apply IH|].
  apply Forall_forall. intros y Hy.
  rewrite Forall_forall in Hhead. destruct (Hhead y Hy) as [Heq|Hlt]; [|done].
  destruct Hx. rewrite Heq. by apply list_elem_of_fmap_2.
Qed.

Lemma Seek_ascending (t : KVTable) (key : std_string) : ascending (Seek t key).
Proof.
  apply sorted_distinct_ascending.
  - unfold Seek. apply StronglySorted_merge_sort; apply _.
  - unfold Seek. rewrite merge_sort_Permutation. apply NoDup_fst_map_to_list.
Qed.

(** ** Sequences of decodes *)

Lemma mapM_Done {A B} (f : A → outcome B) (l : list A) (k : list B) :
  mapM f l = Done k ↔ Forall2 (λ x y, f x = Done y) l k.
Proof.
  revert k. induction l as [|x l IH]; intros k; cbn [mapM].
  - split; [intros [= <-]; constructor|by inv 1].
  - split.
    + intros (y & Hy & Hrest)%bind_Done.
      apply bind_Done in Hrest as (k' & Hk' & [= <-]).
      constructor; [done|by apply IH].
    + inv 1 as [|? y ? k' Hy Hk']. rewrite Hy. cbn [mbind outcome_bind].
      apply IH in Hk'. by rewrite Hk'.
Qed.

Lemma mapM_decodable {A B} (f : A → outcome B) (l : list A) :
  Forall (λ x, ∃ y, f x = Done y) l →
  ∃ k, mapM f l = Done k ∧ length k = length l.
Proof.
  induction 1 as [|x l [y Hy] _ (k & Hk & Hlen)]; [by exists []|].
  exists (y :: k). cbn [mapM length]. rewrite Hy, Hk. by rewrite Hlen.
Qed.

(** ** The CRUD operations *)

Section AdapterProperties.
Context `{!Build}.

Lemma decode_stored_full (fieldcount : Z) (row : list Field) :
  Forall fits row →
  NDEBUG = true ∨ Z.of_nat (length row) = fieldcount mod 2 ^ 64 →
  decode_stored fieldcount None [] (SerializeRow row []) = Done row.
Proof.
  intros Hfits Hcount. unfold decode_stored.
  rewrite DeserializeRow_SerializeRow by done. cbn [mbind outcome_bind app].
  unfold assert. destruct Hcount as [->|Hcount]; [done|].
  rewrite bool_decide_eq_true_2 by done. by destruct NDEBUG.
Qed.

Lemma decode_stored_filter (fieldcount : Z) (row : list Field)
    (requested : list std_string) :
  Forall fits row →
  requested `sublist_of` (name <$> row) →
  decode_stored fieldcount (Some requested) [] (SerializeRow row [])
  = Done (merge_select row requested).
Proof.
  intros Hfits Hsub. unfold decode_stored.
  rewrite DeserializeRowFilter_SerializeRow by done. cbn [app].
  rewrite assert_true; [done|].
  by apply bool_decide_eq_true, merge_select_complete.
Qed.

Lemma decode_stored_fuel (fieldcount : Z) (fields : option (list std_string))
    (result : list Field) (data : std_string) :
  decode_stored fieldcount fields result data ≠ OutOfFuel.
Proof.
  destruct fields as [fields|]; cbn [decode_stored].
  - apply DeserializeRowFilter_total.
  - apply bind_fuel; [apply DeserializeRow_total|]. intros out.
    apply bind_fuel; [unfold assert; by repeat case_match|done].
Qed.

Lemma ReadSingle_eq (table key : std_string) (fields : option (list std_string))
    (result : list Field) (s : state) (t : KVTable) :
  db_ s = live t →
  ReadSingle table key fields result s
  = (match Get t key with
     | None => Done (kNotFound, result)
     | Some data =>
       row ← decode_stored (fieldcount_ (this s)) fields result data;
       Done (kOK, row)
     end, s).
Proof.
  intros Hlive. unfold ReadSingle, mbind, M_bind, get_state, deref_db.
  rewrite Hlive. destruct (Get t key) as [data|]; [|done].
  unfold lift. by destruct (decode_stored _ _ _ _).
Qed.

Lemma InsertSingle_eq (table key : std_string) (values : list Field)
    (s : state) (t : KVTable) :
  db_ s = live t →
  InsertSingle table key values s
  = (Done kOK, set_db_ (live (Put t key (SerializeRow values []))) s).
Proof.
  intros Hlive. unfold InsertSingle, mbind, M_bind, deref_db.
  by rewrite Hlive.
Qed.

Lemma ScanSingle_loop_eq (it : list entry) (i len : Z)
    (fields : option (list std_string)) (result : list (list Field))
    (s : state) :
  ScanSingle_loop it i len fields result s
  = (rows ← mapM (λ e : entry,
                    decode_stored (fieldcount_ (this s)) fields [] e.2)
                 (take (Z.to_nat (len - i)) it);
     Done (result ++ rows), s).
Proof.
  revert i result. induction it as [|e it IH]; intros i result.
  - rewrite take_nil. cbn. by rewrite app_nil_r.
  - cbn [ScanSingle_loop]. destruct (Z.ltb_spec i len) as [Hlt|Hge].
    + replace (Z.to_nat (len - i)) with (S (Z.to_nat (len - (i + 1)))) by lia.
      cbn [take mapM]. unfold mbind at 1 2, M_bind, get_state, lift.
      destruct (decode_stored _ _ _ _) as [values| | | |]; try done.
      rewrite IH. cbn [mbind outcome_bind].
      destruct (mapM _ _) as [rows| | | |]; try done.
      cbn [mbind outcome_bind mret outcome_ret]. by rewrite <- (assoc_L (++)).
    + replace (Z.to_nat (len - i)) with 0%nat by lia.
      cbn. by rewrite app_nil_r.
Qed.

Lemma ScanSingle_eq (table key : std_string) (len : Z)
    (fields : option (list std_string)) (result : list (list Field))
    (s : state) (t : KVTable) :
  db_ s = live t →
  ScanSingle table key len fields result s
  = (rows ← mapM (λ e : entry,
                    decode_stored (fieldcount_ (this s)) fields [] e.2)
                 (take (Z.to_nat len) (Seek t key));
     Done (kOK, result ++ rows), s).
Proof.
  intros Hlive. unfold ScanSingle, mbind at 1 2, M_bind, deref_db.
  rewrite Hlive, ScanSingle_loop_eq, Z.sub_0_r.
  by destruct (mapM _ _).
Qed.
End AdapterProperties.

(** ** C4: Read *)

(** C4: on an open engine, Read leaves the state as it was; it returns
    NotFound exactly when the engine holds no entry for the key; when the
    engine holds one, the outcome is that of decoding the stored buffer (the
    filtered decode when a list of names is supplied, the full decode
    otherwise) with status OK; and for a stored encoding of a row that meets
    the decoder's checks that outcome is OK with the row (respectively with
    its requested fields). *)
Theorem Read_found_or_not `{!Build} (table key : std_string)
    (fields : option (list std_string)) (result : list Field)
    (s : state) (t : KVTable) :
  db_ s = live t →
  (Read table key fields result s).2 = s ∧
  ((∃ r, (Read table key fields result s).1 = Done (kNotFound, r))
     ↔ Get t key = None) ∧
  (Get t key = None →
     (Read table key fields result s).1 = Done (kNotFound, result)) ∧
  (∀ data, Get t key = Some data →
     (Read table key fields result s).1
     = (row ← decode_stored (fieldcount_ (this s)) fields result data;
        Done (kOK, row))) ∧
  (∀ row, Get t key = Some (SerializeRow row []) → Forall fits row →
     (NDEBUG = true ∨ Z.of_nat (length row) = fieldcount_ (this s) mod 2 ^ 64 →
      (Read table key None [] s).1 = Done (kOK, row)) ∧
     (∀ requested, requested `sublist_of` (name <$> row) →
      (Read table key (Some requested) [] s).1
      = Done (kOK, merge_select row requested))).
Proof.
  intros Hlive. unfold Read.
  rewrite !(ReadSingle_eq _ _ _ _ _ t) by done. cbn [fst snd].
  split_and!.
  - done.
  - destruct (Get t key) as [data|]; [|by split; [|exists result]].
    split; [|done]. intros [r Hr].
    by destruct (decode_stored _ _ _ _).
  - by intros ->.
  - by intros data ->.
  - intros row Hrow Hfits. rewrite Hrow. split.
    + intros Hcount. by rewrite decode_stored_full.
    + intros requested Hsub. rewrite (ReadSingle_eq _ _ _ _ _ t) by done.
      cbn [fst]. rewrite Hrow. by rewrite decode_stored_filter.
Qed.

Lemma Read_found_or_not_witness :
  db_ sample_state = live sample_table ∧
  @Read debug_build (bytes "usertable") (bytes "user1") None [] sample_state
    = (Done (kOK, sample_row), sample_state) ∧
  @Read debug_build (bytes "usertable") (bytes "user9") None [] sample_state
    = (Done (kNotFound, []), sample_state).
Proof.
  assert (db_ sample_state = live sample_table) as Hlive by reflexivity.
  pose proof (@Read_found_or_not debug_build (bytes "usertable") (bytes "user1")
                None [] sample_state sample_table Hlive) as (Hs1 & _ & _ & H1 & _).
  pose proof (@Read_found_or_not debug_build (bytes "usertable") (bytes "user9")
                None [] sample_state sample_table Hlive) as (Hs9 & _ & H9 & _).
  split_and!; [exact Hlive| |].
  - apply injective_projections; [|exact Hs1].
    rewrite (H1 (SerializeRow sample_row [])) by (vm_compute; reflexivity).
    vm_compute. reflexivity.
  - apply injective_projections; [|exact Hs9].
    apply H9. vm_compute. reflexivity.
Defined.

(** ** C5: Scan *)

Lemma encoded_values (l : list entry) (stored : list (list Field)) :
  l.*2 = (λ row, SerializeRow row []) <$> stored →
  Forall2 (λ (e : entry) row, e.2 = SerializeRow row []) l stored.
Proof.
  revert l. induction stored as [|row stored IH]; intros [|e l]; try done.
  intros [= He Hl]. constructor; [done|by apply IH].
Qed.

Lemma encoded_values_decode `{!Build} (fieldcount : Z) (l : list entry)
    (stored : list (list Field)) :
  Forall2 (λ (e : entry) row, e.2 = SerializeRow row []) l stored →
  Forall (Forall fits) stored →
  NDEBUG = true ∨
  Forall (λ row, Z.of_nat (length row) = fieldcount mod 2 ^ 64) stored →
  Forall2 (λ (e : entry) row, decode_stored fieldcount None [] e.2 = Done row)
          l stored.
Proof.
  induction 1 as [|e row l stored He _ IH]; intros Hfits Hcount; [constructor|].
  apply Forall_cons in Hfits as [Hrow Hfits]. constructor.
  - rewrite He. apply decode_stored_full; [done|].
    destruct Hcount as [?|Hcount]; [by left|right].
    by apply Forall_cons in Hcount as [? _].
  - apply IH; [done|].
    destruct Hcount as [?|Hcount]; [by left|right].
    by apply Forall_cons in Hcount as [_ ?].
Qed.

Lemma encoded_values_decode_filter `{!Build} (fieldcount : Z) (l : list entry)
    (stored : list (list Field)) (requested : list std_string) :
  Forall2 (λ (e : entry) row, e.2 = SerializeRow row []) l stored →
  Forall (Forall fits) stored →
  Forall (λ row, requested `sublist_of` (name <$> row)) stored →
  Forall2 (λ (e : entry) row,
             decode_stored fieldcount (Some requested) [] e.2 = Done row)
          l ((λ row, merge_select row requested) <$> stored).
Proof.
  induction 1 as [|e row l stored He _ IH]; intros Hfits Hsub; [constructor|].
  apply Forall_cons in Hfits as [Hrow Hfits].
  apply Forall_cons in Hsub as [Hsubrow Hsub].
  cbn [fmap list_fmap]. constructor.
  - rewrite He. by apply decode_stored_filter.
  - by apply IH.
Qed.

(** C5: on an open engine, Scan from a start key with a count [len >= 0]
    visits the first [min len n] entries of the iterator, [n] being the number
    of stored entries with a key at least the start key, and the iterator
    yields exactly those entries in strictly ascending key order.  Scan
    returns only with status OK and one decoded row for each visited entry, in
    that order, appended to the caller's vector, and it does return so when
    the visited entries decode; entries it does not visit play no part.  In
    particular, when the visited values are the encodings of rows that meet
    the decoder's checks, the rows returned are exactly those rows
    (respectively their requested fields); fewer rows than [len] is no
    error. *)
Theorem Scan_rows `{!Build} (table key : std_string) (len : Z)
    (fields : option (list std_string)) (result : list (list Field))
    (s : state) (t : KVTable) :
  db_ s = live t →
  0 ≤ len →
  ascending (Seek t key) ∧
  (∀ e : entry, e ∈ Seek t key ↔ Get t e.1 = Some e.2 ∧ key_le key e.1) ∧
  Z.of_nat (length (take (Z.to_nat len) (Seek t key)))
    = Z.min len (Z.of_nat (size (entries_from t key))) ∧
  (∀ rows,
     Forall2 (λ (e : entry) row,
                decode_stored (fieldcount_ (this s)) fields [] e.2 = Done row)
             (take (Z.to_nat len) (Seek t key)) rows →
     Scan table key len fields result s = (Done (kOK, result ++ rows), s)) ∧
  (∀ out, (Scan table key len fields result s).1 = Done out →
     ∃ rows,
       out = (kOK, result ++ rows) ∧
       Z.of_nat (length rows) = Z.min len (Z.of_nat (size (entries_from t key))) ∧
       Forall2 (λ (e : entry) row,
                  decode_stored (fieldcount_ (this s)) fields [] e.2 = Done row)
               (take (Z.to_nat len) (Seek t key)) rows) ∧
  (∀ stored : list (list Field),
     (take (Z.to_nat len) (Seek t key)).*2
       = (λ row, SerializeRow row []) <$> stored →
     Forall (Forall fits) stored →
     (NDEBUG = true ∨
      Forall (λ row, Z.of_nat (length row) = fieldcount_ (this s) mod 2 ^ 64)
             stored →
      Scan table key len None result s = (Done (kOK, result ++ stored), s)) ∧
     (∀ requested,
        Forall (λ row, requested `sublist_of` (name <$> row)) stored →
        Scan table key len (Some requested) result s
        = (Done (kOK, result ++ ((λ row, merge_select row requested) <$> stored)),
           s))).
Proof.
  intros Hlive Hlen.
  assert (Z.of_nat (length (take (Z.to_nat len) (Seek t key)))
          = Z.min len (Z.of_nat (size (entries_from t key)))) as Hvisited
    by (rewrite length_take, Seek_length; lia).
  assert (∀ fields' rows,
            Forall2 (λ (e : entry) row,
                       decode_stored (fieldcount_ (this s)) fields' [] e.2
                       = Done row)
                    (take (Z.to_nat len) (Seek t key)) rows →
            Scan table key len fields' result s
            = (Done (kOK, result ++ rows), s)) as Hreturns.
  { intros fields' rows Hrows%mapM_Done. unfold Scan.
    rewrite (ScanSingle_eq _ _ _ _ _ _ t) by done. by rewrite Hrows. }
  split_and!.
  - apply Seek_ascending.
  - intros e. by rewrite Seek_elem_of, entries_from_lookup.
  - done.
  - apply Hreturns.
  - intros out. unfold Scan. rewrite (ScanSingle_eq _ _ _ _ _ _ t) by done.
    cbn [fst]. intros (rows & Hrows%mapM_Done & [= <-])%bind_Done.
    exists rows. split_and!; [done| |done].
    by rewrite <- (Forall2_length _ _ _ Hrows).
  - intros stored Hstored%encoded_values Hfits. split.
    + intros Hcount. by apply Hreturns, encoded_values_decode.
    + intros requested Hsub. by apply Hreturns, encoded_values_decode_filter.
Qed.

Example Seek_sample :
  (Seek sample_table (bytes "user2")).*1 = [bytes "user2"; bytes "user3"].
Proof. vm_compute. reflexivity. Qed.

Example Scan_sample :
  @Scan debug_build (bytes "usertable") (bytes "user2") 5 None [] sample_state
  = (Done (kOK, [sample_row; sample_row]), sample_state).
Proof. vm_compute. reflexivity. Qed.

Example Scan_sample_count :
  @Scan debug_build (bytes "usertable") (bytes "user0") 2
    (Some [bytes "field1"]) [] sample_state
  = (Done (kOK, [[mkField (bytes "field1") [x00; xff; x00]];
                 [mkField (bytes "field1") [x00; xff; x00]]]), sample_state).
Proof. vm_compute. reflexivity. Qed.

Lemma sample_row_fits : Forall fits sample_row.
Proof. repeat constructor; vm_compute; reflexivity. Defined.

Lemma Scan_rows_witness :
  db_ sample_state = live sample_table ∧
  0 ≤ 5 ∧
  (take (Z.to_nat 5) (Seek sample_table (bytes "user2"))).*2
    = (λ row, SerializeRow row []) <$> [sample_row; sample_row] ∧
  @Scan debug_build (bytes "usertable") (bytes "user2") 5 None [] sample_state
    = (Done (kOK, [] ++ [sample_row; sample_row]), sample_state).
Proof.
  assert (db_ sample_state = live sample_table) as Hlive by reflexivity.
  assert (0 ≤ 5) as Hlen by lia.
  assert ((take (Z.to_nat 5) (Seek sample_table (bytes "user2"))).*2
          = (λ row, SerializeRow row []) <$> [sample_row; sample_row]) as Hstored
    by (vm_compute; reflexivity).
  split; [exact Hlive|]. split; [exact Hlen|]. split; [exact Hstored|].
  destruct (@Scan_rows debug_build (bytes "usertable") (bytes "user2") 5 None []
              sample_state sample_table Hlive Hlen)
    as (_ & _ & _ & _ & _ & Hencodings).
  assert (Forall (Forall fits) [sample_row; sample_row]) as Hfits
    by exact (Forall_cons_2 _ _ _ sample_row_fits
                (Forall_cons_2 _ _ _ sample_row_fits (Forall_nil_2 _))).
  destruct (Hencodings [sample_row; sample_row] Hstored Hfits) as [Hunfiltered _].
  apply Hunfiltered. right.
  apply Forall_cons_2; [reflexivity|].
  apply Forall_cons_2; [reflexivity|apply Forall_nil_2].
Defined.

(** ** C6: Update *)

(** C6, amended: Update is Insert.  On an open engine, for every key and all
    rows R1 and R2 such that the names and values of R2 are shorter than 2^32
    bytes and R2 has as many fields as the adapter's configured field count
    (which only a build with assertions checks), Insert of R1 followed by
    Update with R2 stores exactly the encoding of R2 under the key, and the
    unfiltered Read that follows returns OK with exactly R2. *)
Theorem Update_overwrites `{!Build} (table key : std_string)
    (R1 R2 : list Field) (s : state) (t : KVTable) :
  db_ s = live t →
  Forall fits R2 →
  NDEBUG = true ∨ Z.of_nat (length R2) = fieldcount_ (this s) mod 2 ^ 64 →
  Update table key R2 = Insert table key R2 ∧
  ∃ s1 s2 t2,
    Insert table key R1 s = (Done kOK, s1) ∧
    Update table key R2 s1 = (Done kOK, s2) ∧
    db_ s2 = live t2 ∧
    Get t2 key = Some (SerializeRow R2 []) ∧
    Read table key None [] s2 = (Done (kOK, R2), s2).
Proof.
  intros Hlive Hfits Hcount. split; [done|].
  unfold Update, UpdateSingle, Insert, Read.
  eexists _, _, _. split; [by apply InsertSingle_eq|].
  split; [by apply InsertSingle_eq|].
  split; [done|]. split; [apply Get_Put|].
  erewrite ReadSingle_eq by done. rewrite Get_Put.
  by rewrite decode_stored_full.
Qed.

Lemma Update_overwrites_witness :
  db_ sample_state = live sample_table ∧
  Forall fits sample_row ∧
  (@NDEBUG debug_build = true ∨
   Z.of_nat (length sample_row) = fieldcount_ (this sample_state) mod 2 ^ 64) ∧
  ∃ s1 s2 t2,
    Insert (bytes "usertable") (bytes "user7") [] sample_state
      = (Done kOK, s1) ∧
    Update (bytes "usertable") (bytes "user7") sample_row s1
      = (Done kOK, s2) ∧
    db_ s2 = live t2 ∧
    Get t2 (bytes "user7") = Some (SerializeRow sample_row []) ∧
    @Read debug_build (bytes "usertable") (bytes "user7") None [] s2
      = (Done (kOK, sample_row), s2).
Proof.
  assert (db_ sample_state = live sample_table) as Hlive by reflexivity.
  assert (@NDEBUG debug_build = true ∨
          Z.of_nat (length sample_row) = fieldcount_ (this sample_state) mod 2 ^ 64)
    as Hcount by (right; reflexivity).
  split_and!; [exact Hlive|exact sample_row_fits|exact Hcount|].
  exact (proj2 (@Update_overwrites debug_build (bytes "usertable") (bytes "user7")
                  [] sample_row sample_state sample_table
                  Hlive sample_row_fits Hcount)).
Defined.

(** C6 as stated fails in a build with assertions when the row of the Update
    has another number of fields than the adapter is configured for: with three
    configured fields, Insert of two fields, Update with one field, then the
    unfiltered Read stops at the assertion on the field count. *)
Lemma Update_then_Read_field_count :
  let R1 := [mkField (bytes "a") (bytes "1"); mkField (bytes "b") (bytes "2")] in
  let R2 := [mkField (bytes "a") (bytes "9")] in
  let s1 := (Insert (bytes "usertable") (bytes "k") R1 sample_state).2 in
  let s2 := (Update (bytes "usertable") (bytes "k") R2 s1).2 in
  (Insert (bytes "usertable") (bytes "k") R1 sample_state).1 = Done kOK ∧
  (Update (bytes "usertable") (bytes "k") R2 s1).1 = Done kOK ∧
  (@Read debug_build (bytes "usertable") (bytes "k") None [] s2).1 = AssertionFailed.
Proof. vm_compute. done. Qed.

(** ** C7: Delete *)

(** C7: Delete returns OK and leaves the whole state, the engine's entries
    included, as it was; a Read after it has the outcome it had before, so for
    a key whose stored buffer encodes a row that meets the decoder's checks it
    still returns OK with that row. *)
Theorem Delete_changes_nothing `{!Build} (table key : std_string) (s : state) :
  Delete table key s = (Done kOK, s) ∧
  (∀ fields result,
     Read table key fields result (Delete table key s).2
     = Read table key fields result s) ∧
  (∀ t row,
     db_ s = live t → Get t key = Some (SerializeRow row []) →
     Forall fits row →
     NDEBUG = true ∨ Z.of_nat (length row) = fieldcount_ (this s) mod 2 ^ 64 →
     Read table key None [] (Delete table key s).2 = (Done (kOK, row), s)).
Proof.
  split_and!; [done|done|].
  intros t row Hlive Hget Hfits Hcount. cbn [Delete DeleteSingle snd].
  unfold Read. erewrite ReadSingle_eq by done. rewrite Hget.
  by rewrite decode_stored_full.
Qed.

Lemma Delete_changes_nothing_witness :
  Delete (bytes "usertable") (bytes "user1") sample_state
    = (Done kOK, sample_state) ∧
  @Read debug_build (bytes "usertable") (bytes "user1") None []
      (Delete (bytes "usertable") (bytes "user1") sample_state).2
    = (Done (kOK, sample_row), sample_state).
Proof.
  destruct (@Delete_changes_nothing debug_build (bytes "usertable")
              (bytes "user1") sample_state) as (Hdelete & _ & Hread).
  split; [exact Hdelete|].
  apply (Hread sample_table sample_row); [reflexivity| |exact sample_row_fits|].
  - vm_compute. reflexivity.
  - right. reflexivity.
Defined.

(** ** The lifecycle of the shared handle *)

Section LifecycleProperties.
Context `{!Build}.

Section Init.
Variables (s : state) (fieldcount : Z).
Hypothesis Hfieldcount :
  stoi (GetProperty (props_ (this s)) FIELD_COUNT_PROPERTY FIELD_COUNT_DEFAULT)
  = Done fieldcount.
Hypothesis Hcount : ref_cnt_ s ≠ 2 ^ 31 - 1.

Lemma Init_shared : db_ s ≠ nullptr → Init s = (Done tt, counted fieldcount s).
Proof.
  intros Hdb. unfold Init, mbind, M_bind, get_state, lift, modify.
  rewrite Hfieldcount, decide_False by done.
  by destruct (db_ s).
Qed.

Lemma Init_missing_path :
  db_ s = nullptr → db_path (this s) = [] →
  Init s = (Thrown missing_path, counted fieldcount s).
Proof.
  intros Hdb Hpath. unfold Init, mbind, M_bind, get_state, lift, modify.
  rewrite Hfieldcount, decide_False, Hdb by done.
  unfold db_path in Hpath. by rewrite decide_True by done.
Qed.

Lemma Init_opens (pool_size : Z) :
  db_ s = nullptr → db_path (this s) ≠ [] →
  stoi (GetProperty (props_ (this s)) POOL_SIZE_NAME POOL_SIZE_NAME_DEFAULT)
    = Done pool_size →
  PAGE_SIZE ≠ 0 →
  Init s
  = (Done tt,
     set_db_ (live (mkKVTable (db_path (this s)) (pool_size ÷ PAGE_SIZE)
                      (durable (db_path (this s)))))
       (emit (Opened (db_path (this s)) (pool_size ÷ PAGE_SIZE))
          (counted fieldcount s))).
Proof.
  intros Hdb Hpath Hpool Hpage.
  unfold Init, mbind, M_bind, get_state, lift, modify.
  rewrite Hfieldcount, decide_False, Hdb by done.
  unfold db_path in Hpath. rewrite decide_False by done.
  rewrite Hpool. by rewrite decide_False by done.
Qed.
End Init.

Lemma Cleanup_shared (s : state) :
  ref_cnt_ s ≠ - 2 ^ 31 → ref_cnt_ s ≠ 1 →
  Cleanup s = (Done tt, set_ref_cnt_ (ref_cnt_ s - 1) s).
Proof.
  intros Hmin Hlast. unfold Cleanup, mbind, M_bind, get_state, lift, modify.
  rewrite decide_False by done. by rewrite decide_False by lia.
Qed.

Lemma Cleanup_last (s : state) :
  ref_cnt_ s = 1 →
  Cleanup s
  = match db_ s with
    | nullptr => (Done tt, set_ref_cnt_ 0 s)
    | live _ => (Done tt, set_db_ dangling (emit Closed (set_ref_cnt_ 0 s)))
    | dangling => (Undefined, set_ref_cnt_ 0 s)
    end.
Proof.
  intros Hlast. unfold Cleanup, mbind, M_bind, get_state, lift, modify.
  rewrite Hlast. cbn. by destruct (db_ s).
Qed.

(** Further objects join an open handle: only the counter moves. *)
Lemma Init_each_shared (os : list BTreeDB) (s : state) :
  db_ s ≠ nullptr →
  Forall (λ o, ∃ fieldcount,
            stoi (GetProperty (props_ o) FIELD_COUNT_PROPERTY FIELD_COUNT_DEFAULT)
            = Done fieldcount) os →
  0 ≤ ref_cnt_ s → ref_cnt_ s + Z.of_nat (length os) < 2 ^ 31 →
  ∃ s', Init_each os s = (Done tt, s') ∧
        db_ s' = db_ s ∧ trace s' = trace s ∧
        ref_cnt_ s' = ref_cnt_ s + Z.of_nat (length os).
Proof.
  intros Hdb Hos. revert s Hdb.
  induction Hos as [|o os [fieldcount Ho] _ IH]; intros s Hdb Hpos Hmax.
  - exists s. cbn. split_and!; [done..|lia].
  - cbn [length] in Hmax. cbn [Init_each]. unfold mbind, M_bind, on.
    rewrite (Init_shared _ fieldcount) by (done || cbn; lia).
    destruct (IH (counted fieldcount (set_this o s)))
      as (s' & Hrun & Hdb' & Htrace & Href); [done|cbn; lia..|].
    exists s'. rewrite Hrun. split_and!; [done..|].
    rewrite Href. cbn. lia.
Qed.

(** As many releases as there are holders: the last one deletes. *)
Lemma Cleanup_times_all (n : nat) (s : state) (t : KVTable) :
  db_ s = live t → ref_cnt_ s = Z.of_nat (S n) →
  ∃ s', Cleanup_times (S n) s = (Done tt, s') ∧
        db_ s' = dangling ∧ trace s' = trace s ++ [Closed] ∧ ref_cnt_ s' = 0.
Proof.
  revert s. induction n as [|n IH]; intros s Hdb Href.
  - cbn [Cleanup_times]. unfold mbind, M_bind.
    rewrite Cleanup_last, Hdb by done. by eexists.
  - change (Cleanup_times (S (S n)) s)
      with ((_ ← Cleanup; Cleanup_times (S n)) s).
    unfold mbind, M_bind. rewrite Cleanup_shared by lia.
    destruct (IH (set_ref_cnt_ (ref_cnt_ s - 1) s)) as (s' & Hrun & ?);
      [done|cbn; lia|].
    exists s'. by rewrite Hrun.
Qed.
End LifecycleProperties.

Section Lifecycle.
Context `{!Build}.

(** The part of C8 that holds: from the initial state, [Init] on N objects
    (the first with a valid configuration, the others with a readable field
    count) followed by N calls of [Cleanup] opens the engine once, with the
    first object's path, and closes it once, at the last [Cleanup]. *)
Lemma balanced_cycle_opens_and_closes_once (o : BTreeDB) (os : list BTreeDB)
    (fieldcount pool_size : Z) :
  PAGE_SIZE ≠ 0 →
  valid_configuration o fieldcount pool_size →
  Forall (λ o', ∃ fieldcount',
            stoi (GetProperty (props_ o') FIELD_COUNT_PROPERTY FIELD_COUNT_DEFAULT)
            = Done fieldcount') os →
  Z.of_nat (S (length os)) < 2 ^ 31 →
  ∃ s', (_ ← Init_each (o :: os); Cleanup_times (S (length os))) (initial o)
        = (Done tt, s') ∧
        trace s' = [Opened (db_path o) (pool_size ÷ PAGE_SIZE); Closed] ∧
        db_ s' = dangling ∧ ref_cnt_ s' = 0.
Proof.
  intros Hpage (Hfc & Hpath & Hpool) Hos Hmax.
  cbn [Init_each]. unfold mbind at 1 2, M_bind at 1 2, on.
  rewrite (Init_opens (set_this o (initial o)) fieldcount)
    with (pool_size := pool_size) by done.
  set (s1 := set_db_ _ _).
  destruct (Init_each_shared os s1) as (s2 & Hrun & Hdb & Htrace & Href);
    [done|done|cbn; lia|cbn; lia|].
  rewrite Hrun.
  destruct (Cleanup_times_all (length os) s2 _ Hdb)
    as (s3 & Hrun' & Hdb' & Htrace' & Href'); [rewrite Href; cbn; lia|].
  exists s3. rewrite Hrun'. split_and!; [done| |done..].
  by rewrite Htrace', Htrace.
Qed.

Lemma ReadSingle_dangling (table key : std_string)
    (fields : option (list std_string)) (result : list Field) (s : state) :
  db_ s = dangling → ReadSingle table key fields result s = (Undefined, s).
Proof.
  intros Hdb. unfold ReadSingle, mbind, M_bind, get_state, deref_db.
  by rewrite Hdb.
Qed.
End Lifecycle.

(** ** C8: one open and one close per balanced cycle, then a fresh start *)

(** C8, at the input where the code departs from it: after [Init] and the
    matching [Cleanup] the engine has been opened once and closed once, but
    [db_] still holds the address of the deleted engine; the [Init] of a
    second cycle therefore takes the handle for present, opens nothing, and
    what follows (a Read, the matching [Cleanup]) is undefined. *)
Theorem second_cycle_keeps_deleted_handle `{!Build} (o o' : BTreeDB)
    (fieldcount pool_size fieldcount' : Z) :
  PAGE_SIZE ≠ 0 →
  valid_configuration o fieldcount pool_size →
  valid_configuration o' fieldcount' pool_size →
  ∃ s1 s2,
    (_ ← on o Init; Cleanup) (initial o) = (Done tt, s1) ∧
    trace s1 = [Opened (db_path o) (pool_size ÷ PAGE_SIZE); Closed] ∧
    ref_cnt_ s1 = 0 ∧
    db_ s1 = dangling ∧
    on o' Init s1 = (Done tt, s2) ∧
    trace s2 = trace s1 ∧
    db_ s2 = dangling ∧
    (∀ table key fields result,
       (Read table key fields result s2).1 = Undefined) ∧
    (Cleanup s2).1 = Undefined.
Proof.
  intros Hpage Hvalid (Hfc' & _ & _).
  destruct (balanced_cycle_opens_and_closes_once o [] fieldcount pool_size)
    as (s1 & Hrun & Htrace & Hdb & Href); [done|done|constructor|cbn; lia|].
  cbn [Init_each Cleanup_times length] in Hrun.
  exists s1, (counted fieldcount' (set_this o' s1)).
  split_and!; try done.
  - revert Hrun. unfold mbind, M_bind, mret, M_ret.
    destruct (on o Init (initial o)) as [[[]| | | |] s0]; try done.
    by destruct (Cleanup s0) as [[[]| | | |] s0'].
  - unfold on. apply Init_shared; cbn; [done|lia|by rewrite Hdb].
  - intros table key fields result. unfold Read.
    by rewrite ReadSingle_dangling.
  - rewrite Cleanup_last by (cbn; lia). cbn [db_ set_ref_cnt_ counted set_this].
    by rewrite Hdb.
Qed.

Lemma second_cycle_keeps_deleted_handle_witness :
  @PAGE_SIZE debug_build ≠ 0 ∧
  @valid_configuration debug_build sample_db 3 134217728 ∧
  ∃ s1 s2,
    (_ ← on sample_db (@Init debug_build); Cleanup) (initial sample_db)
      = (Done tt, s1) ∧
    trace s1 = [Opened (db_path sample_db) (134217728 ÷ @PAGE_SIZE debug_build);
                Closed] ∧
    ref_cnt_ s1 = 0 ∧
    db_ s1 = dangling ∧
    on sample_db (@Init debug_build) s1 = (Done tt, s2) ∧
    trace s2 = trace s1 ∧
    db_ s2 = dangling ∧
    (∀ table key fields result,
       (@Read debug_build table key fields result s2).1 = Undefined) ∧
    (Cleanup s2).1 = Undefined.
Proof.
  assert (@PAGE_SIZE debug_build ≠ 0) as Hpage by (vm_compute; discriminate).
  assert (@valid_configuration debug_build sample_db 3 134217728) as Hvalid.
  { split_and!; [vm_compute; reflexivity|vm_compute; discriminate|
                 vm_compute; reflexivity]. }
  split_and!; [exact Hpage|exact Hvalid|].
  exact (@second_cycle_keeps_deleted_handle debug_build sample_db sample_db
           3 134217728 3 Hpage Hvalid Hvalid).
Defined.

(** ** C9: the first Init *)

(** C9: when [db_] is null (and the field count is readable), [Init] with a
    missing or empty storage path throws the "BTree db path is missing"
    exception with no engine constructed and [db_] still null; with a
    storage path it constructs the engine on that path with a page count of
    the configured pool size divided by [PAGE_SIZE], the pool size being
    134217728 when none is configured. *)
Theorem Init_without_handle `{!Build} (s : state) (fieldcount : Z) :
  db_ s = nullptr →
  stoi (GetProperty (props_ (this s)) FIELD_COUNT_PROPERTY FIELD_COUNT_DEFAULT)
    = Done fieldcount →
  ref_cnt_ s ≠ 2 ^ 31 - 1 →
  (props_ (this s) !! PROP_NAME = None → db_path (this s) = []) ∧
  (db_path (this s) = [] →
     ∃ s', Init s = (Thrown missing_path, s') ∧
           db_ s' = nullptr ∧ trace s' = trace s) ∧
  (db_path (this s) ≠ [] → PAGE_SIZE ≠ 0 →
     ∀ pool_size,
       stoi (GetProperty (props_ (this s)) POOL_SIZE_NAME POOL_SIZE_NAME_DEFAULT)
         = Done pool_size →
       ∃ s', Init s = (Done tt, s') ∧
             db_ s' = live (mkKVTable (db_path (this s)) (pool_size ÷ PAGE_SIZE)
                              (durable (db_path (this s)))) ∧
             trace s' = trace s ++ [Opened (db_path (this s))
                                           (pool_size ÷ PAGE_SIZE)]) ∧
  (props_ (this s) !! POOL_SIZE_NAME = None →
     stoi (GetProperty (props_ (this s)) POOL_SIZE_NAME POOL_SIZE_NAME_DEFAULT)
       = Done 134217728).
Proof.
  intros Hdb Hfc Hcount. split_and!.
  - intros Hnone. unfold db_path, GetProperty. by rewrite Hnone.
  - intros Hpath. eexists. split; [by apply Init_missing_path|].
    by rewrite <- Hdb.
  - intros Hpath Hpage pool_size Hpool. eexists.
    split; [by apply Init_opens|done].
  - intros Hnone. unfold GetProperty. rewrite Hnone. by vm_compute.
Qed.

Lemma Init_without_handle_witness :
  db_ (initial sample_db) = nullptr ∧
  stoi (GetProperty (props_ (this (initial sample_db)))
          (@FIELD_COUNT_PROPERTY debug_build) (@FIELD_COUNT_DEFAULT debug_build))
    = Done 3 ∧
  ref_cnt_ (initial sample_db) ≠ 2 ^ 31 - 1 ∧
  ∃ s', @Init debug_build (initial sample_db) = (Done tt, s') ∧
        db_ s' = live (mkKVTable (bytes "/tmp/btree.db") 32768 ∅) ∧
        trace s' = [Opened (bytes "/tmp/btree.db") 32768].
Proof.
  assert (db_ (initial sample_db) = nullptr) as Hdb by reflexivity.
  assert (stoi (GetProperty (props_ (this (initial sample_db)))
            (@FIELD_COUNT_PROPERTY debug_build) (@FIELD_COUNT_DEFAULT debug_build))
          = Done 3) as Hfc by (vm_compute; reflexivity).
  assert (ref_cnt_ (initial sample_db) ≠ 2 ^ 31 - 1) as Hcount
    by (vm_compute; discriminate).
  split_and!; [exact Hdb|exact Hfc|exact Hcount|].
  destruct (@Init_without_handle debug_build (initial sample_db) 3 Hdb Hfc Hcount)
    as (_ & _ & Hopen & Hdefault).
  destruct (Hopen ltac:(vm_compute; discriminate) ltac:(vm_compute; discriminate)
              134217728 (Hdefault ltac:(vm_compute; reflexivity)))
    as (s' & Hinit & Hdb' & Htrace).
  exists s'. split_and!; [exact Hinit|exact Hdb'|exact Htrace].
Defined.

(** ** C10: the counter after a failed Init *)

(** C10: [Init] counts before it looks at the storage path, so an [Init] that
    throws for a missing path leaves [ref_cnt_] one higher.  From the initial
    state such a failed [Init] leaves the counter at 1 with no handle; a
    [Cleanup] is then accepted without any successful [Init]; and when one
    object does acquire the handle afterwards, its own [Cleanup] finds the
    counter at 2 and leaves the engine open. *)
Theorem failed_Init_is_counted `{!Build} (o_bad o_good : BTreeDB)
    (fieldcount_bad fieldcount pool_size : Z) :
  PAGE_SIZE ≠ 0 →
  stoi (GetProperty (props_ o_bad) FIELD_COUNT_PROPERTY FIELD_COUNT_DEFAULT)
    = Done fieldcount_bad →
  db_path o_bad = [] →
  valid_configuration o_good fieldcount pool_size →
  (∀ s, this s = o_bad → db_ s = nullptr → ref_cnt_ s ≠ 2 ^ 31 - 1 →
     ∃ s', Init s = (Thrown missing_path, s') ∧
           ref_cnt_ s' = ref_cnt_ s + 1 ∧ db_ s' = nullptr) ∧
  ∃ s1 s2 s3 s4 t,
    on o_bad Init (initial o_bad) = (Thrown missing_path, s1) ∧
    ref_cnt_ s1 = 1 ∧
    Cleanup s1 = (Done tt, s4) ∧ ref_cnt_ s4 = 0 ∧ trace s4 = [] ∧
    on o_good Init s1 = (Done tt, s2) ∧
    ref_cnt_ s2 = 2 ∧ db_ s2 = live t ∧
    Cleanup s2 = (Done tt, s3) ∧
    ref_cnt_ s3 = 1 ∧ db_ s3 = live t ∧ Closed ∉ trace s3.
Proof.
  intros Hpage Hfc_bad Hpath (Hfc & Hpath_good & Hpool). split.
  - intros s Hthis Hdb Hcount. subst o_bad. eexists.
    split; [by apply Init_missing_path|]. by rewrite <- Hdb.
  - eexists _, _, _, _, _. split_and!.
    + unfold on. by apply Init_missing_path.
    + done.
    + by rewrite Cleanup_last.
    + done.
    + done.
    + unfold on. by apply (Init_opens _ fieldcount).
    + done.
    + done.
    + by apply Cleanup_shared.
    + done.
    + done.
    + cbn. intros Hin. apply list_elem_of_singleton in Hin. discriminate Hin.
Qed.

Lemma failed_Init_is_counted_witness :
  @PAGE_SIZE debug_build ≠ 0 ∧
  stoi (GetProperty (props_ pathless_db)
          (@FIELD_COUNT_PROPERTY debug_build) (@FIELD_COUNT_DEFAULT debug_build))
    = Done 10 ∧
  db_path pathless_db = [] ∧
  @valid_configuration debug_build sample_db 3 134217728 ∧
  ∃ s1, on pathless_db (@Init debug_build) (initial pathless_db)
          = (Thrown missing_path, s1) ∧
        ref_cnt_ s1 = 1.
Proof.
  assert (@PAGE_SIZE debug_build ≠ 0) as Hpage by (vm_compute; discriminate).
  assert (stoi (GetProperty (props_ pathless_db)
            (@FIELD_COUNT_PROPERTY debug_build) (@FIELD_COUNT_DEFAULT debug_build))
          = Done 10) as Hfc by (vm_compute; reflexivity).
  assert (db_path pathless_db = []) as Hpath by reflexivity.
  assert (@valid_configuration debug_build sample_db 3 134217728) as Hvalid.
  { split_and!; [vm_compute; reflexivity|vm_compute; discriminate|
                 vm_compute; reflexivity]. }
  split_and!; [exact Hpage|exact Hfc|exact Hpath|exact Hvalid|].
  destruct (@failed_Init_is_counted debug_build pathless_db sample_db
              10 3 134217728 Hpage Hfc Hpath Hvalid)
    as (_ & s1 & s2 & s3 & s4 & t & Hbad & Href & _).
  exists s1. split; [exact Hbad|exact Href].
Defined.

(** * Further properties of the codec *)

(** ** The length prefix, read back *)

Lemma byte_of_Z_low (z : Z) (b : byte) : Z.land z 255 = Z_of_byte b → byte_of_Z z = b.
Proof.
  intros Hz. unfold byte_of_Z. rewrite Hz. unfold Z_of_byte.
  by rewrite N2Z.id, Byte.of_to_N.
Qed.

Lemma Z_of_byte_bits_high (b : byte) (n : Z) :
  8 ≤ n → Z.testbit (Z_of_byte b) n = false.
Proof.
  intros Hn. unfold Z_of_byte. pose proof (Byte.to_N_bounded b) as Hb.
  destruct (decide (Z.of_N (Byte.to_N b) = 0)) as [->|Hne]; [apply Z.bits_0|].
  apply Z.bits_above_log2; [lia|].
  apply Z.log2_lt_pow2; [lia|].
  assert (2 ^ 8 ≤ 2 ^ n) by (apply Z.pow_le_mono_r; lia). lia.
Qed.

Lemma uint32_of_bytes_range (b0 b1 b2 b3 : byte) :
  0 ≤ uint32_of_bytes b0 b1 b2 b3 < 2 ^ 32.
Proof.
  assert (0 ≤ uint32_of_bytes b0 b1 b2 b3) as Hpos.
  { unfold uint32_of_bytes, Z_of_byte.
    repeat (apply Z.lor_nonneg; split); try apply Z.shiftl_nonneg; lia. }
  split; [done|].
  destruct (Z.lt_ge_cases (uint32_of_bytes b0 b1 b2 b3) (2 ^ 32)) as [?|Hge];
    [done|exfalso].
  assert (32 ≤ Z.log2 (uint32_of_bytes b0 b1 b2 b3)) as Hlog
    by (apply Z.log2_le_pow2; lia).
  pose proof (Z.bit_log2 (uint32_of_bytes b0 b1 b2 b3) ltac:(lia)) as Hbit.
  revert Hbit. unfold uint32_of_bytes at 1.
  rewrite !Z.lor_spec, !Z.shiftl_spec by lia.
  by rewrite !Z_of_byte_bits_high by lia.
Qed.

Lemma uint32_bytes_uint32_of_bytes (b0 b1 b2 b3 : byte) :
  uint32_bytes (uint32_of_bytes b0 b1 b2 b3) = [b0; b1; b2; b3].
Proof.
  unfold uint32_bytes.
  assert (∀ (k : Z) (b : byte),
            (∀ n, 0 ≤ n < 8 →
               Z.testbit (uint32_of_bytes b0 b1 b2 b3) (n + k)
               = Z.testbit (Z_of_byte b) n) →
            0 ≤ k →
            byte_of_Z (Z.shiftr (uint32_of_bytes b0 b1 b2 b3) k) = b) as Hbyte.
  { intros k b Hbits Hk. apply byte_of_Z_low, Z.bits_inj'. intros n Hn.
    rewrite testbit_low_byte, Z.shiftr_spec by lia.
    destruct (Z.ltb_spec n 8).
    - rewrite andb_true_r. apply Hbits. lia.
    - by rewrite andb_false_r, Z_of_byte_bits_high by lia. }
  rewrite <- (Z.shiftr_0_r (uint32_of_bytes b0 b1 b2 b3)) at 1.
  rewrite (Hbyte 0 b0), (Hbyte 8 b1), (Hbyte 16 b2), (Hbyte 24 b3); [done|..];
    try lia; intros n Hn; unfold uint32_of_bytes;
    rewrite !Z.lor_spec, !Z.shiftl_spec by lia.
  - replace (n + 24 - 24) with n by lia.
    rewrite (Z_of_byte_bits_high b0), (Z_of_byte_bits_high b1),
      (Z_of_byte_bits_high b2) by lia. done.
  - replace (n + 16 - 16) with n by lia.
    rewrite (Z_of_byte_bits_high b0), (Z_of_byte_bits_high b1),
      (Z.testbit_neg_r _ (n + 16 - 24)) by lia.
    by rewrite orb_false_r.
  - replace (n + 8 - 8) with n by lia.
    rewrite (Z_of_byte_bits_high b0), (Z.testbit_neg_r _ (n + 8 - 16)),
      (Z.testbit_neg_r _ (n + 8 - 24)) by lia.
    by rewrite !orb_false_r.
  - replace (n + 0) with n by lia.
    rewrite (Z.testbit_neg_r _ (n - 8)), (Z.testbit_neg_r _ (n - 16)),
      (Z.testbit_neg_r _ (n - 24)) by lia.
    by rewrite !orb_false_r.
Qed.

Lemma read_uint32_inv (p p' : std_string) (len : Z) :
  read_uint32 p = Done (len, p') →
  p = uint32_bytes len ++ p' ∧ 0 ≤ len < 2 ^ 32.
Proof.
  destruct p as [|b0 [|b1 [|b2 [|b3 p1]]]]; try done. intros [= <- <-].
  by rewrite uint32_bytes_uint32_of_bytes; split; [|apply uint32_of_bytes_range].
Qed.

Lemma read_string_inv (p p' s : std_string) (len : Z) :
  0 ≤ len → read_string p len = Done (s, p') →
  p = s ++ p' ∧ Z.of_nat (length s) = len.
Proof.
  intros Hlen. unfold read_string.
  destruct (Z.ltb_spec (Z.of_nat (length p)) len); [done|]. intros [= <- <-].
  rewrite take_drop, length_take. split; [done|lia].
Qed.

(** ** Size and composition of encodings *)

(** X1: the encoding of a row is appended to the content the string already
    has and takes eight bytes per field plus the bytes of its names and
    values, whatever their content and length. *)
Theorem SerializeRow_size (values : list Field) (data : std_string) :
  length (SerializeRow values data)
  = (length data
     + sum_list ((λ f, 8 + length (name f) + length (value f)) <$> values))%nat.
Proof.
  revert data. induction values as [|f values IH]; intros data.
  - cbn. lia.
  - unfold SerializeRow in *. cbn [foldl fmap list_fmap sum_list sum_list_with].
    rewrite IH, SerializeField_app, length_app, length_SerializeField.
    unfold id. lia.
Qed.

(** X2: there is no row header: the encoding of two rows one after the other
    is the encoding of their concatenation, after what the string held. *)
Theorem SerializeRow_concat (r1 r2 : list Field) (data : std_string) :
  SerializeRow r2 (SerializeRow r1 data) = SerializeRow (r1 ++ r2) data ∧
  SerializeRow (r1 ++ r2) data = data ++ SerializeRow r1 [] ++ SerializeRow r2 [].
Proof.
  assert (SerializeRow r2 (SerializeRow r1 data) = SerializeRow (r1 ++ r2) data)
    as Hfold by (unfold SerializeRow; by rewrite foldl_app).
  split; [done|].
  rewrite <- Hfold, (SerializeRow_app r2), (SerializeRow_app r1).
  by rewrite <- (assoc_L (++)).
Qed.

Lemma bind_Done_or_Undefined {A B} (m : outcome A) (f : A → outcome B) :
  (m = Undefined ∨ ∃ a, m = Done a) →
  (∀ a, f a = Undefined ∨ ∃ b, f a = Done b) →
  m ≫= f = Undefined ∨ ∃ b, m ≫= f = Done b.
Proof. intros [->|[a ->]] Hf; [by left|apply Hf]. Qed.

Lemma read_uint32_Done_or_Undefined (p : std_string) :
  read_uint32 p = Undefined ∨ ∃ x, read_uint32 p = Done x.
Proof. destruct p as [|b0 [|b1 [|b2 [|b3 p1]]]]; eauto. Qed.

Lemma read_string_Done_or_Undefined (p : std_string) (len : Z) :
  read_string p len = Undefined ∨ ∃ x, read_string p len = Done x.
Proof. unfold read_string. case_match; eauto. Qed.

Section CodecInverse.
Context `{!Build}.

(** A turn that succeeds has read exactly one encoded field. *)
Lemma read_field_inv (p p' : std_string) (f : Field) :
  read_field p = Done (f, p') → p = SerializeField [] f ++ p' ∧ fits f.
Proof.
  unfold read_field.
  intros (_ & _ & H1)%bind_Done.
  apply bind_Done in H1 as ([len1 p1] & [-> Hlen1]%read_uint32_inv & H2).
  apply bind_Done in H2 as ([s1 p2] & Hs1 & H3).
  apply read_string_inv in Hs1 as [-> Hs1]; [|lia].
  apply bind_Done in H3 as ([len2 p3] & [-> Hlen2]%read_uint32_inv & H4).
  apply bind_Done in H4 as ([s2 p4] & Hs2 & [= <- <-]).
  apply read_string_inv in Hs2 as [-> Hs2]; [|lia].
  split; [|split; cbn [name value]; lia].
  rewrite SerializeField_eq. cbn [name value].
  rewrite !uint32_of_size_small, Hs1, Hs2 by lia.
  by rewrite <- !(assoc_L (++)).
Qed.

(** On a non-empty buffer a turn either succeeds or reads past [lim]. *)
Lemma read_field_Done_or_Undefined (p : std_string) :
  p ≠ [] → read_field p = Undefined ∨ ∃ fp, read_field p = Done fp.
Proof.
  intros Hp. unfold read_field.
  rewrite assert_true by (apply bool_decide_eq_true; destruct p; cbn; [done|lia]).
  cbn [mbind outcome_bind].
  apply bind_Done_or_Undefined; [apply read_uint32_Done_or_Undefined|].
  intros [len1 p1].
  apply bind_Done_or_Undefined; [apply read_string_Done_or_Undefined|].
  intros [s1 p2].
  apply bind_Done_or_Undefined; [apply read_uint32_Done_or_Undefined|].
  intros [len2 p3].
  apply bind_Done_or_Undefined; [apply read_string_Done_or_Undefined|].
  intros [s2 p4]. right. by eexists.
Qed.

Lemma DeserializeRow_loop_inv (fuel : nat) (values out : list Field)
    (p : std_string) :
  DeserializeRow_loop fuel values p = Done out →
  ∃ row, out = values ++ row ∧ Forall fits row ∧ p = SerializeRow row [].
Proof.
  revert values p. induction fuel as [|fuel IH]; intros values p.
  - destruct p; [|done]. intros [= <-]. exists []. by rewrite app_nil_r.
  - destruct p as [|b p].
    { intros [= <-]. exists []. by rewrite app_nil_r. }
    rewrite DeserializeRow_loop_step by done.
    intros ([f p'] & [Hp Hf]%read_field_inv & Hrest)%bind_Done.
    apply IH in Hrest as (row & -> & Hfits & ->).
    exists (f :: row). rewrite SerializeRow_cons, <- Hp.
    split_and!; [by rewrite <- (assoc_L (++))|by constructor|done].
Qed.

(** X3: the unfiltered decode returns normally exactly on the encodings of
    rows whose names and values are shorter than 2^32 bytes, and then appends
    that row to the vector it was given: a buffer it accepts is, byte for
    byte, the encoding of what it returns. *)
Theorem DeserializeRow_accepts_encodings (values out : list Field)
    (data : std_string) :
  DeserializeRow values data = Done out ↔
  ∃ row, out = values ++ row ∧ Forall fits row ∧ data = SerializeRow row [].
Proof.
  split.
  - apply DeserializeRow_loop_inv.
  - intros (row & -> & Hfits & ->). by apply DeserializeRow_SerializeRow.
Qed.

(** X4: rows whose names and values are shorter than 2^32 bytes have
    different encodings when they differ. *)
Theorem SerializeRow_injective (r1 r2 : list Field) :
  Forall fits r1 → Forall fits r2 →
  SerializeRow r1 [] = SerializeRow r2 [] → r1 = r2.
Proof.
  intros H1 H2 Heq.
  pose proof (DeserializeRow_SerializeRow [] r1 H1) as Hd1.
  rewrite Heq, DeserializeRow_SerializeRow in Hd1 by done.
  by injection Hd1 as ->.
Qed.

Lemma read_field_truncated (f : Field) (q r : std_string) :
  fits f → q ≠ [] → r ≠ [] → q ++ r = SerializeField [] f →
  read_field q = Undefined.
Proof.
  intros Hf Hq Hr Hcut.
  destruct (read_field_Done_or_Undefined q Hq) as [?|([f' q'] & Hread)]; [done|].
  exfalso. pose proof Hread as [Hq' Hf']%read_field_inv.
  pose proof (read_field_SerializeField f' (q' ++ r) Hf') as Hwhole.
  rewrite (assoc_L (++)), <- Hq', Hcut in Hwhole.
  rewrite <- (app_nil_r (SerializeField [] f)) in Hwhole.
  rewrite read_field_SerializeField in Hwhole by done.
  injection Hwhole as _ Hnil. symmetry in Hnil.
  apply app_eq_nil in Hnil as [_ ?]. done.
Qed.

(** X5: the unfiltered decode never returns normally from a buffer that ends
    inside an encoded field (after any number of whole fields); in an
    [NDEBUG] build, where no assertion can stop it first, it reads past the
    end of the buffer. *)
Theorem DeserializeRow_truncated (values row : list Field) (f : Field)
    (q r : std_string) :
  Forall fits row → fits f → q ≠ [] → r ≠ [] →
  q ++ r = SerializeField [] f →
  (∀ out, DeserializeRow values (SerializeRow row [] ++ q) ≠ Done out) ∧
  (NDEBUG = true →
   DeserializeRow values (SerializeRow row [] ++ q) = Undefined).
Proof.
  intros Hrow Hf Hq Hr Hcut.
  assert (DeserializeRow values (SerializeRow row [] ++ q) = Undefined)
    as Hundefined; [|by rewrite Hundefined].
  unfold DeserializeRow.
  assert (∀ fuel vals, (length row < fuel)%nat →
            DeserializeRow_loop fuel vals (SerializeRow row [] ++ q) = Undefined)
    as Hloop.
  { clear values. induction Hrow as [|g row Hg Hrow IH]; intros fuel vals Hfuel.
    - destruct fuel as [|fuel]; [lia|]. cbn [SerializeRow foldl app].
      rewrite DeserializeRow_loop_step by done.
      by rewrite (read_field_truncated f q r).
    - destruct fuel as [|fuel]; [lia|]. cbn [length] in Hfuel.
      rewrite SerializeRow_cons, <- (assoc_L (++)).
      rewrite DeserializeRow_loop_step by apply SerializeField_not_nil.
      rewrite read_field_SerializeField by done. cbn [mbind outcome_bind].
      apply IH. lia. }
  apply Hloop. rewrite length_app. pose proof (length_SerializeRow row).
  destruct q; [done|cbn [length]; lia].
Qed.
End CodecInverse.

Lemma SerializeRow_injective_witness :
  Forall fits sample_row ∧ Forall fits (take 2 sample_row ++ drop 2 sample_row) ∧
  SerializeRow sample_row [] = SerializeRow (take 2 sample_row ++ drop 2 sample_row) [] ∧
  sample_row = take 2 sample_row ++ drop 2 sample_row.
Proof.
  assert (Forall fits (take 2 sample_row ++ drop 2 sample_row)) as Hfits'
    by exact sample_row_fits.
  assert (SerializeRow sample_row []
          = SerializeRow (take 2 sample_row ++ drop 2 sample_row) []) as Heq
    by reflexivity.
  split_and!; [exact sample_row_fits|exact Hfits'|exact Heq|].
  exact (@SerializeRow_injective debug_build sample_row
           (take 2 sample_row ++ drop 2 sample_row) sample_row_fits Hfits' Heq).
Defined.

Lemma DeserializeRow_truncated_witness :
  Forall fits (take 1 sample_row) ∧ fits (mkField (bytes "field1") [x00; xff; x00]) ∧
  @NDEBUG release_build = true ∧
  @DeserializeRow release_build []
     (SerializeRow (take 1 sample_row) []
      ++ take 9 (SerializeField [] (mkField (bytes "field1") [x00; xff; x00])))
  = Undefined.
Proof.
  assert (Forall fits (take 1 sample_row)) as Hrow
    by (repeat constructor; vm_compute; reflexivity).
  assert (fits (mkField (bytes "field1") [x00; xff; x00])) as Hf
    by (split; vm_compute; reflexivity).
  split; [exact Hrow|]. split; [exact Hf|]. split; [reflexivity|].
  refine (proj2 (@DeserializeRow_truncated release_build [] (take 1 sample_row)
           (mkField (bytes "field1") [x00; xff; x00])
           (take 9 (SerializeField [] (mkField (bytes "field1") [x00; xff; x00])))
           (drop 9 (SerializeField [] (mkField (bytes "field1") [x00; xff; x00])))
           Hrow Hf _ _ _) eq_refl); [discriminate|discriminate|reflexivity].
Defined.

(** ** Further properties of the filtered decode *)

Lemma merge_select_all (row : list Field) : merge_select row (name <$> row) = row.
Proof.
  induction row as [|f row IH]; [done|].
  cbn [fmap list_fmap merge_select]. rewrite decide_True by done.
  f_equal. exact IH.
Qed.

Lemma sublist_cons_matched {A} (x : A) (l k : list A) :
  x :: l `sublist_of` x :: k → l `sublist_of` k.
Proof.
  intros [Hsub|(l' & [= <-] & Hsub)]%sublist_cons_r; [|done].
  etrans; [|exact Hsub]. by apply sublist_cons.
Qed.

Lemma sublist_cons_unmatched {A} (x y : A) (l k : list A) :
  x ≠ y → x :: l `sublist_of` y :: k → x :: l `sublist_of` k.
Proof.
  intros Hne [Hsub|(l' & [= ? <-] & Hsub)]%sublist_cons_r; [done|congruence].
Qed.

Section FilterExtras.
Context `{!Build}.

Lemma DeserializeRowFilter_loop_tail (fuel : nat) (values row : list Field)
    (requested : list std_string) (tail : std_string) :
  (length row ≤ fuel)%nat → Forall fits row →
  requested `sublist_of` (name <$> row) →
  DeserializeRowFilter_loop fuel values (SerializeRow row [] ++ tail) requested
  = Done (values ++ merge_select row requested).
Proof.
  revert fuel values requested.
  induction row as [|f row IH]; intros fuel values requested Hfuel Hfits Hsub.
  - apply sublist_nil_r in Hsub as ->.
    by rewrite DeserializeRowFilter_loop_end, app_nil_r.
  - destruct requested as [|wanted requested].
    { by rewrite DeserializeRowFilter_loop_end, app_nil_r. }
    destruct fuel as [|fuel]; [cbn [length] in Hfuel; lia|].
    apply Forall_cons in Hfits as [Hf Hrow]. cbn [length] in Hfuel.
    rewrite SerializeRow_cons, <- (assoc_L (++)).
    rewrite DeserializeRowFilter_loop_step by apply SerializeField_not_nil.
    rewrite read_field_SerializeField by done.
    cbn [mbind outcome_bind merge_select]. cbn [fmap list_fmap] in Hsub.
    case_decide as Hw.
    + subst wanted. apply sublist_cons_matched in Hsub.
      rewrite IH by (lia || done). by rewrite <- (assoc_L (++)).
    + apply sublist_cons_unmatched in Hsub; [|done].
      by rewrite IH by (lia || done).
Qed.

(** X6: the filtered decode stops reading at the last requested name: when the
    requested names occur in order in an encoded row, whatever bytes follow
    that row in the buffer are not looked at and do not change the result. *)
Theorem DeserializeRowFilter_ignores_tail (row : list Field)
    (requested : list std_string) (tail : std_string) :
  Forall fits row →
  requested `sublist_of` (name <$> row) →
  DeserializeRowFilter [] (SerializeRow row [] ++ tail) requested
  = Done (merge_select row requested).
Proof.
  intros Hfits Hsub. unfold DeserializeRowFilter, DeserializeRowFilter_range.
  rewrite DeserializeRowFilter_loop_tail; [|rewrite length_app;
    pose proof (length_SerializeRow row); lia|done|done].
  cbn [mbind outcome_bind app].
  rewrite assert_true; [done|].
  by apply bool_decide_eq_true, merge_select_complete.
Qed.

(** X7: requesting all the names of a row, in the row's order, makes the
    filtered decode return the whole row, repeated names included. *)
Theorem DeserializeRowFilter_all_names (row : list Field) :
  Forall fits row →
  DeserializeRowFilter [] (SerializeRow row []) (name <$> row) = Done row.
Proof.
  intros Hfits. rewrite DeserializeRowFilter_SerializeRow by done.
  rewrite merge_select_all. cbn [app].
  by rewrite assert_true by (apply bool_decide_eq_true; by rewrite length_fmap).
Qed.

(** X8: both decodes append to the vector they are given and their closing
    assertions count what it already held: behind the unfiltered decode the
    field count is compared with the old and the new fields together, and the
    filtered decode of fully matched names passes its assertion only when the
    vector was empty. *)
Theorem decode_stored_appends (fieldcount : Z) (result row : list Field)
    (requested : list std_string) :
  Forall fits row →
  requested `sublist_of` (name <$> row) →
  decode_stored fieldcount None result (SerializeRow row [])
    = (if NDEBUG || bool_decide (Z.of_nat (length result + length row)
                                 = fieldcount mod 2 ^ 64)
       then Done (result ++ row) else AssertionFailed) ∧
  decode_stored fieldcount (Some requested) result (SerializeRow row [])
    = (if NDEBUG || bool_decide (result = [])
       then Done (result ++ merge_select row requested) else AssertionFailed).
Proof.
  intros Hfits Hsub. unfold decode_stored. split.
  - rewrite DeserializeRow_SerializeRow by done. cbn [mbind outcome_bind].
    unfold assert. rewrite length_app, Nat2Z.inj_add.
    destruct NDEBUG; [done|]. cbn [orb].
    rewrite <- Nat2Z.inj_add. by case_bool_decide.
  - rewrite DeserializeRowFilter_SerializeRow by done.
    apply merge_select_complete in Hsub.
    unfold assert. destruct NDEBUG; [done|]. cbn [orb].
    rewrite length_app, Hsub.
    destruct result as [|f result].
    + rewrite bool_decide_eq_true_2 by done. by rewrite bool_decide_eq_true_2.
    + rewrite bool_decide_eq_false_2 by (cbn [length]; lia).
      by rewrite bool_decide_eq_false_2.
Qed.
End FilterExtras.

Lemma DeserializeRowFilter_ignores_tail_witness :
  Forall fits sample_row ∧
  [bytes "field0"] `sublist_of` (name <$> sample_row) ∧
  @DeserializeRowFilter debug_build [] (SerializeRow sample_row [] ++ [xff; xff; xff])
      [bytes "field0"]
  = Done [mkField (bytes "field0") (bytes "alpha")].
Proof.
  assert ([bytes "field0"] `sublist_of` (name <$> sample_row)) as Hsub
    by (apply sublist_skip, sublist_nil_l).
  split_and!; [exact sample_row_fits|exact Hsub|].
  exact (@DeserializeRowFilter_ignores_tail debug_build sample_row
           [bytes "field0"] [xff; xff; xff] sample_row_fits Hsub).
Defined.

Lemma DeserializeRowFilter_all_names_witness :
  Forall fits sample_row ∧
  @DeserializeRowFilter debug_build [] (SerializeRow sample_row [])
      (name <$> sample_row) = Done sample_row.
Proof.
  split; [exact sample_row_fits|].
  exact (@DeserializeRowFilter_all_names debug_build sample_row sample_row_fits).
Defined.

Lemma decode_stored_appends_witness :
  Forall fits sample_row ∧
  [bytes "field1"] `sublist_of` (name <$> sample_row) ∧
  @decode_stored debug_build 3 None [mkField [] []] (SerializeRow sample_row [])
    = AssertionFailed ∧
  @decode_stored debug_build 3 (Some [bytes "field1"]) [mkField [] []]
      (SerializeRow sample_row [])
    = AssertionFailed.
Proof.
  assert ([bytes "field1"] `sublist_of` (name <$> sample_row)) as Hsub
    by (apply sublist_cons, sublist_skip, sublist_nil_l).
  split_and!; [exact sample_row_fits|exact Hsub|..].
  - exact (proj1 (@decode_stored_appends debug_build 3 [mkField [] []] sample_row
                    [bytes "field1"] sample_row_fits Hsub)).
  - exact (proj2 (@decode_stored_appends debug_build 3 [mkField [] []] sample_row
                    [bytes "field1"] sample_row_fits Hsub)).
Defined.

(** * Further properties of the CRUD operations *)

Section AdapterExtras.
Context `{!Build}.

Lemma deref_db_no_handle (s : state) :
  (∀ t, db_ s ≠ live t) → deref_db s = (Undefined, s).
Proof. intros Hdb. unfold deref_db. destruct (db_ s); [done|by edestruct Hdb|done]. Qed.

Lemma ReadSingle_no_handle (table key : std_string)
    (fields : option (list std_string)) (result : list Field) (s : state) :
  (∀ t, db_ s ≠ live t) → ReadSingle table key fields result s = (Undefined, s).
Proof.
  intros Hdb. unfold ReadSingle, mbind, M_bind, get_state.
  by rewrite deref_db_no_handle.
Qed.

Lemma ScanSingle_no_handle (table key : std_string) (len : Z)
    (fields : option (list std_string)) (result : list (list Field)) (s : state) :
  (∀ t, db_ s ≠ live t) → ScanSingle table key len fields result s = (Undefined, s).
Proof.
  intros Hdb. unfold ScanSingle, mbind, M_bind. by rewrite deref_db_no_handle.
Qed.

Lemma InsertSingle_no_handle (table key : std_string) (values : list Field)
    (s : state) :
  (∀ t, db_ s ≠ live t) → InsertSingle table key values s = (Undefined, s).
Proof.
  intros Hdb. unfold InsertSingle, mbind, M_bind. by rewrite deref_db_no_handle.
Qed.

Lemma live_or_not (s : state) : (∃ t, db_ s = live t) ∨ (∀ t, db_ s ≠ live t).
Proof. destruct (db_ s); eauto. Qed.

Lemma ReadSingle_state (table key : std_string)
    (fields : option (list std_string)) (result : list Field) (s : state) :
  (ReadSingle table key fields result s).2 = s.
Proof.
  destruct (live_or_not s) as [[t Hlive]|Hdb].
  - by rewrite (ReadSingle_eq _ _ _ _ _ t).
  - by rewrite ReadSingle_no_handle.
Qed.

Lemma ScanSingle_state (table key : std_string) (len : Z)
    (fields : option (list std_string)) (result : list (list Field)) (s : state) :
  (ScanSingle table key len fields result s).2 = s.
Proof.
  destruct (live_or_not s) as [[t Hlive]|Hdb].
  - by rewrite (ScanSingle_eq _ _ _ _ _ _ t).
  - by rewrite ScanSingle_no_handle.
Qed.

(** X9: before [Init] has opened the engine, and after the last [Cleanup] has
    deleted it, Read, Scan, Update and Insert call through a pointer that is
    null or dangling (undefined behaviour) and change nothing; Delete
    never touches the pointer and returns OK. *)
Theorem CRUD_without_engine (table key : std_string) (len : Z)
    (fields : option (list std_string)) (result : list Field)
    (results : list (list Field)) (values : list Field) (s : state) :
  (∀ t, db_ s ≠ live t) →
  Read table key fields result s = (Undefined, s) ∧
  Scan table key len fields results s = (Undefined, s) ∧
  Update table key values s = (Undefined, s) ∧
  Insert table key values s = (Undefined, s) ∧
  Delete table key s = (Done kOK, s).
Proof.
  intros Hdb. unfold Read, Scan, Update, UpdateSingle, Insert, Delete.
  by rewrite ReadSingle_no_handle, ScanSingle_no_handle, InsertSingle_no_handle.
Qed.

(** X10: the adapter never reports an error status: a Read that returns has
    status OK or NotFound, and NotFound leaves the caller's vector as it was;
    a Scan, an Update, an Insert or a Delete that returns has status OK. *)
Theorem statuses_returned (table key : std_string) (len : Z)
    (fields : option (list std_string)) (result : list Field)
    (results : list (list Field)) (values : list Field) (s : state) :
  (∀ status out, (Read table key fields result s).1 = Done (status, out) →
     status = kOK ∨ (status = kNotFound ∧ out = result)) ∧
  (∀ status out, (Scan table key len fields results s).1 = Done (status, out) →
     status = kOK ∧ results `prefix_of` out) ∧
  (∀ status, (Update table key values s).1 = Done status → status = kOK) ∧
  (∀ status, (Insert table key values s).1 = Done status → status = kOK) ∧
  (∀ status, (Delete table key s).1 = Done status → status = kOK).
Proof.
  unfold Read, Scan, Update, UpdateSingle, Insert, Delete.
  destruct (live_or_not s) as [[t Hlive]|Hdb].
  - rewrite (ReadSingle_eq _ _ _ _ _ t), (ScanSingle_eq _ _ _ _ _ _ t),
      (InsertSingle_eq _ _ _ _ t) by done. cbn [fst].
    split_and!.
    + intros status out. destruct (Get t key) as [data|].
      * intros (row & _ & [= <- <-])%bind_Done. by left.
      * intros [= <- <-]. by right.
    + intros status out (rows & _ & [= <- <-])%bind_Done.
      split; [done|]. by apply prefix_app_r.
    + by intros status [= <-].
    + by intros status [= <-].
    + by intros status [= <-].
  - rewrite ReadSingle_no_handle, ScanSingle_no_handle, InsertSingle_no_handle
      by done.
    split_and!; try done. by intros status [= <-].
Qed.

Lemma Seek_nil (t : KVTable) (key : std_string) :
  (∀ k data, Get t k = Some data → ¬ key_le key k) → Seek t key = [].
Proof.
  intros Hnone. destruct (Seek t key) as [|e l] eqn:Hseek; [done|].
  assert (e ∈ Seek t key) as He by (rewrite Hseek; left).
  apply Seek_elem_of, entries_from_lookup in He as [Hget Hle].
  by destruct (Hnone _ _ Hget).
Qed.

(** X11: a Scan with a count of zero or less, or from a start key above every
    stored key, returns OK with the caller's vector as it was; it decodes no
    entry, so it does so whatever the engine holds. *)
Theorem Scan_nothing (table key : std_string) (len : Z)
    (fields : option (list std_string)) (results : list (list Field))
    (s : state) (t : KVTable) :
  db_ s = live t →
  len ≤ 0 ∨ (∀ k data, Get t k = Some data → ¬ key_le key k) →
  Scan table key len fields results s = (Done (kOK, results), s).
Proof.
  intros Hlive Hnone. unfold Scan. rewrite (ScanSingle_eq _ _ _ _ _ _ t) by done.
  destruct Hnone as [Hlen|Hkeys].
  - replace (Z.to_nat len) with 0%nat by lia. rewrite take_0.
    change (mapM _ []) with (Done (@nil (list Field))).
    cbn [mbind outcome_bind]. by rewrite app_nil_r.
  - rewrite Seek_nil by done. rewrite take_nil.
    change (mapM _ []) with (Done (@nil (list Field))).
    cbn [mbind outcome_bind]. by rewrite app_nil_r.
Qed.

Lemma Seek_head (t : KVTable) (key data : std_string) :
  Get t key = Some data → ∃ l, Seek t key = (key, data) :: l.
Proof.
  intros Hget.
  assert ((key, data) ∈ Seek t key) as Hin
    by (apply Seek_elem_of, entries_from_lookup; by split).
  pose proof (Seek_ascending t key) as Hasc.
  destruct (Seek t key) as [|e l] eqn:Hseek; [by apply elem_of_nil in Hin|].
  assert (e ∈ Seek t key) as He by (rewrite Hseek; left).
  apply Seek_elem_of, entries_from_lookup in He as [Hget' Hle].
  apply elem_of_cons in Hin as [<-|Hin]; [by exists l|].
  exfalso. apply StronglySorted_inv in Hasc as [_ Hall].
  rewrite Forall_forall in Hall. specialize (Hall _ Hin). cbn [fst] in Hall.
  destruct Hle as [Heq|Hlt].
  - rewrite Heq in Hall. exact (irreflexivity lexico _ Hall).
  - exact (irreflexivity lexico _ (transitivity Hall Hlt)).
Qed.

(** X12: for a stored key, a Scan of one entry from that key has the outcome
    of the Read of the key with the same field list, as a one-row result. *)
Theorem Scan_one_is_Read (table key data : std_string)
    (fields : option (list std_string)) (s : state) (t : KVTable) :
  db_ s = live t →
  Get t key = Some data →
  Scan table key 1 fields [] s
  = (('(status, row) ← (Read table key fields [] s).1; Done (status, [row])), s).
Proof.
  intros Hlive Hget. unfold Scan, Read.
  rewrite (ScanSingle_eq _ _ _ _ _ _ t), (ReadSingle_eq _ _ _ _ _ t) by done.
  destruct (Seek_head t key data Hget) as [l ->]. rewrite Hget.
  change (take (Z.to_nat 1) ((key, data) :: l)) with [(key, data)].
  change (mapM ?f [(key, data)])
    with (y ← f (key, data); k ← Done (@nil (list Field)); Done (y :: k)).
  cbn [snd]. by destruct (decode_stored _ _ _ _).
Qed.

(** X13: a Scan with a smaller count returns the first rows of the Scan with
    a larger count from the same key. *)
Theorem Scan_shorter (table key : std_string) (len1 len2 : Z)
    (fields : option (list std_string)) (results rows : list (list Field))
    (s : state) :
  0 ≤ len1 ≤ len2 →
  Scan table key len2 fields results s = (Done (kOK, results ++ rows), s) →
  Scan table key len1 fields results s
  = (Done (kOK, results ++ take (Z.to_nat len1) rows), s).
Proof.
  intros Hlen. unfold Scan.
  destruct (live_or_not s) as [[t Hlive]|Hdb];
    [|by rewrite ScanSingle_no_handle].
  rewrite !(ScanSingle_eq _ _ _ _ _ _ t) by done.
  intros [= Hrows].
  apply bind_Done in Hrows as (rows' & Hrows' & [= ->%(inj (app results))]).
  apply mapM_Done in Hrows'.
  apply (Forall2_take _ _ _ (Z.to_nat len1)) in Hrows'.
  rewrite take_take in Hrows'.
  replace (Z.to_nat len1 `min` Z.to_nat len2)%nat with (Z.to_nat len1)
    in Hrows' by lia.
  apply mapM_Done in Hrows'. by rewrite Hrows'.
Qed.

(** X14: an Insert followed by a Read of the same key with a list of names
    that occur in order in the inserted row returns OK with those fields; the
    filtered Read does not compare the row with the configured field count. *)
Theorem Insert_then_filtered_Read (table key : std_string) (row : list Field)
    (requested : list std_string) (s : state) (t : KVTable) :
  db_ s = live t →
  Forall fits row →
  requested `sublist_of` (name <$> row) →
  ∃ s', Insert table key row s = (Done kOK, s') ∧
        Read table key (Some requested) [] s'
        = (Done (kOK, merge_select row requested), s').
Proof.
  intros Hlive Hfits Hsub. unfold Insert, Read. eexists.
  split; [by apply InsertSingle_eq|].
  erewrite ReadSingle_eq by done. rewrite Get_Put.
  by rewrite decode_stored_filter.
Qed.

(** X15: an Insert (or Update) changes the entry of its key and nothing else:
    the receiver, the counter and the record of engine calls stay, the engine
    keeps its path and page count, and every other key holds what it held. *)
Theorem Insert_frame (table key : std_string) (values : list Field)
    (s : state) (t : KVTable) :
  db_ s = live t →
  ∃ t', db_ (Insert table key values s).2 = live t' ∧
        this (Insert table key values s).2 = this s ∧
        ref_cnt_ (Insert table key values s).2 = ref_cnt_ s ∧
        trace (Insert table key values s).2 = trace s ∧
        table_path t' = table_path t ∧ table_pages t' = table_pages t ∧
        Get t' key = Some (SerializeRow values []) ∧
        (∀ key', key' ≠ key → Get t' key' = Get t key').
Proof.
  intros Hlive. unfold Insert. rewrite (InsertSingle_eq _ _ _ _ t) by done.
  eexists. split_and!; try done; [apply Get_Put|].
  intros key' Hne. unfold Get, Put. cbn [entries]. by apply lookup_insert_ne.
Qed.
End AdapterExtras.

(** * Further properties of the lifecycle *)

Section LifecycleExtras.
Context `{!Build}.

(** X16: once a handle exists, [Init] reads neither the storage path nor the
    pool size: whatever they are, it returns after setting the receiver's
    field count and adding one to the counter, and the handle and the record
    of engine calls stay as the first caller left them. *)
Theorem Init_joins_existing_handle (s : state) (fieldcount : Z) :
  db_ s ≠ nullptr →
  stoi (GetProperty (props_ (this s)) FIELD_COUNT_PROPERTY FIELD_COUNT_DEFAULT)
    = Done fieldcount →
  ref_cnt_ s ≠ 2 ^ 31 - 1 →
  ∃ s', Init s = (Done tt, s') ∧
        db_ s' = db_ s ∧ trace s' = trace s ∧
        ref_cnt_ s' = ref_cnt_ s + 1 ∧
        this s' = mkBTreeDB (props_ (this s)) fieldcount.
Proof.
  intros Hdb Hfc Hcount. eexists. split; [by apply Init_shared|done].
Qed.

(** X17: a field count that [std::stoi] rejects makes [Init] leave by that
    exception before it has assigned [fieldcount_] and before it has counted:
    [ref_cnt_], [db_], the engine and the receiver's field count and
    properties are as before the call. *)
Theorem Init_bad_field_count (s : state) (e : exception) :
  stoi (GetProperty (props_ (this s)) FIELD_COUNT_PROPERTY FIELD_COUNT_DEFAULT)
    = Thrown e →
  ∃ s', Init s = (Thrown e, s') ∧
        ref_cnt_ s' = ref_cnt_ s ∧ db_ s' = db_ s ∧ trace s' = trace s ∧
        fieldcount_ (this s') = fieldcount_ (this s) ∧
        props_ (this s') = props_ (this s).
Proof.
  intros Hfc. exists s. split; [|done].
  unfold Init, mbind, M_bind, get_state, lift. by rewrite Hfc.
Qed.

(** X18: a pool size that [std::stoi] rejects makes the first [Init] leave by
    that exception after it has counted: [ref_cnt_] is one higher, no engine
    has been constructed and [db_] is still null. *)
Theorem Init_bad_pool_size (s : state) (fieldcount : Z) (e : exception) :
  db_ s = nullptr →
  stoi (GetProperty (props_ (this s)) FIELD_COUNT_PROPERTY FIELD_COUNT_DEFAULT)
    = Done fieldcount →
  ref_cnt_ s ≠ 2 ^ 31 - 1 →
  db_path (this s) ≠ [] →
  stoi (GetProperty (props_ (this s)) POOL_SIZE_NAME POOL_SIZE_NAME_DEFAULT)
    = Thrown e →
  ∃ s', Init s = (Thrown e, s') ∧
        ref_cnt_ s' = ref_cnt_ s + 1 ∧ db_ s' = nullptr ∧ trace s' = trace s.
Proof.
  intros Hdb Hfc Hcount Hpath Hpool. exists (counted fieldcount s).
  split; [|by rewrite <- Hdb].
  unfold Init, mbind, M_bind, get_state, lift, modify.
  rewrite Hfc, decide_False, Hdb by done.
  unfold db_path in Hpath. rewrite decide_False by done. by rewrite Hpool.
Qed.

(** X19: [Cleanup] deletes the engine exactly when the counter was 1: with any
    other counter it only subtracts one.  So a [Cleanup] without an [Init]
    before it takes the counter from 0 to -1, and the [Cleanup] of the [Init]
    that follows finds the counter at 0 and leaves the engine open. *)
Theorem Cleanup_deletes_at_one (s : state) :
  ref_cnt_ s ≠ - 2 ^ 31 →
  (ref_cnt_ s ≠ 1 → Cleanup s = (Done tt, set_ref_cnt_ (ref_cnt_ s - 1) s)) ∧
  (∀ t, ref_cnt_ s = 1 → db_ s = live t →
     Cleanup s = (Done tt, set_db_ dangling (emit Closed (set_ref_cnt_ 0 s)))) ∧
  (∀ o fieldcount pool_size,
     PAGE_SIZE ≠ 0 → valid_configuration o fieldcount pool_size →
     ∃ s1 s2 s3 t,
       Cleanup (initial o) = (Done tt, s1) ∧ ref_cnt_ s1 = -1 ∧
       on o Init s1 = (Done tt, s2) ∧ ref_cnt_ s2 = 0 ∧ db_ s2 = live t ∧
       Cleanup s2 = (Done tt, s3) ∧ ref_cnt_ s3 = -1 ∧ db_ s3 = live t ∧
       Closed ∉ trace s3).
Proof.
  intros Hmin. split_and!.
  - intros Hlast. by apply Cleanup_shared.
  - intros t Hlast Hlive. by rewrite Cleanup_last, Hlive.
  - intros o fieldcount pool_size Hpage (Hfc & Hpath & Hpool).
    eexists _, _, _, _. split_and!.
    + by apply Cleanup_shared.
    + done.
    + unfold on. by apply (Init_opens _ fieldcount).
    + done.
    + done.
    + by apply Cleanup_shared.
    + done.
    + done.
    + cbn. intros Hin. apply list_elem_of_singleton in Hin. discriminate Hin.
Qed.

Lemma Init_keeps_handle_and_trace (s : state) :
  handle_matches_trace s → handle_matches_trace (Init s).2.
Proof.
  intros Hinv. unfold Init, mbind, M_bind, get_state, lift, modify, throw, lift.
  destruct (stoi (GetProperty _ FIELD_COUNT_PROPERTY _)); try done.
  destruct (decide (ref_cnt_ s = _)); [done|].
  unfold handle_matches_trace in *.
  destruct (db_ s) eqn:Hdb;
    [|cbn [fst snd mret M_ret db_ trace set_this set_ref_cnt_];
      by rewrite Hdb..].
  destruct (decide (GetProperty _ PROP_NAME _ = []));
    [cbn [snd db_ trace set_this set_ref_cnt_]; by rewrite Hdb|].
  destruct (stoi (GetProperty _ POOL_SIZE_NAME _));
    try (cbn [snd db_ trace set_this set_ref_cnt_]; by rewrite Hdb).
  destruct (decide (PAGE_SIZE = 0));
    [cbn [snd db_ trace set_this set_ref_cnt_]; by rewrite Hdb|].
  cbn [snd db_ trace set_this set_ref_cnt_ set_db_ emit table_path table_pages].
  by rewrite Hinv.
Qed.

Lemma Cleanup_keeps_handle_and_trace (s : state) :
  handle_matches_trace s → handle_matches_trace (Cleanup s).2.
Proof.
  intros Hinv. unfold Cleanup, mbind, M_bind, get_state, lift, modify.
  destruct (decide (ref_cnt_ s = _)); [done|].
  destruct (decide (ref_cnt_ s - 1 = 0)); [|done].
  unfold handle_matches_trace in *.
  destruct (db_ s) eqn:Hdb; cbn [fst snd mret M_ret db_ trace set_ref_cnt_
    set_db_ emit]; rewrite ?Hdb; try done.
  rewrite Hinv. by eexists _, _.
Qed.

Lemma Insert_keeps_handle_and_trace (table key : std_string)
    (values : list Field) (s : state) :
  handle_matches_trace s → handle_matches_trace (InsertSingle table key values s).2.
Proof.
  intros Hinv. destruct (live_or_not s) as [[t Hlive]|Hdb].
  - rewrite (InsertSingle_eq _ _ _ _ t) by done.
    unfold handle_matches_trace in *. by rewrite Hlive in Hinv.
  - by rewrite InsertSingle_no_handle.
Qed.

Lemma state_after_keeps_handle_and_trace (c : call) (s : state) :
  handle_matches_trace s → handle_matches_trace (state_after c s).
Proof.
  intros Hinv. destruct c; cbn [state_after]; unfold on.
  - by apply Init_keeps_handle_and_trace.
  - by apply Cleanup_keeps_handle_and_trace.
  - unfold Read. by rewrite ReadSingle_state.
  - unfold Scan. by rewrite ScanSingle_state.
  - unfold Update, UpdateSingle. by apply Insert_keeps_handle_and_trace.
  - unfold Insert. by apply Insert_keeps_handle_and_trace.
  - done.
Qed.

(** X20: in every run of member-function calls from the initial statics, on
    whatever objects and in whatever order, in which each call so far has
    returned or left by an exception, the engine has been constructed at most
    once and destroyed at most once: either no engine call has happened and
    [db_] is null, or the engine was opened once and [db_] points to it (with
    the path and page count it was opened with), or it was opened once and
    then closed once and [db_] dangles; after its destruction no engine is
    opened again. *)
Theorem engine_opened_at_most_once (o : BTreeDB) (cs : list call) (s : state) :
  run_calls cs (initial o) = Some s →
  (db_ s = nullptr ∧ trace s = []) ∨
  (∃ t, db_ s = live t ∧ trace s = [Opened (table_path t) (table_pages t)]) ∨
  (∃ path page_num, db_ s = dangling ∧ trace s = [Opened path page_num; Closed]).
Proof.
  intros Hrun.
  assert (handle_matches_trace s) as Hinv.
  { assert (handle_matches_trace (initial o)) as Hinit by done.
    revert Hinit Hrun. generalize (initial o).
    induction cs as [|c cs IH]; intros s0 Hs0; cbn [run_calls].
    - by intros [= <-].
    - destruct (call_survives c s0); [|done].
      by apply IH, state_after_keeps_handle_and_trace. }
  unfold handle_matches_trace in Hinv.
  destruct (db_ s) as [|t|]; eauto.
  destruct Hinv as (path & page_num & Htrace). eauto 6.
Qed.
End LifecycleExtras.

(** ** The further properties at concrete inputs *)

Lemma CRUD_without_engine_witness :
  (∀ t, db_ (initial sample_db) ≠ live t) ∧
  @Read debug_build (bytes "usertable") (bytes "user1") None [] (initial sample_db)
    = (Undefined, initial sample_db) ∧
  Delete (bytes "usertable") (bytes "user1") (initial sample_db)
    = (Done kOK, initial sample_db).
Proof.
  assert (∀ t, db_ (initial sample_db) ≠ live t) as Hdb by (intros t; discriminate).
  destruct (@CRUD_without_engine debug_build (bytes "usertable") (bytes "user1")
              1 None [] [] sample_row (initial sample_db) Hdb)
    as (Hread & _ & _ & _ & Hdelete).
  split_and!; [exact Hdb|exact Hread|exact Hdelete].
Defined.

Lemma Scan_nothing_witness :
  db_ sample_state = live sample_table ∧
  (0 ≤ 0 ∨ (∀ k data, Get sample_table k = Some data → ¬ key_le (bytes "user1") k)) ∧
  @Scan debug_build (bytes "usertable") (bytes "user1") 0 None [] sample_state
    = (Done (kOK, []), sample_state).
Proof.
  assert (db_ sample_state = live sample_table) as Hlive by reflexivity.
  assert (0 ≤ 0 ∨ (∀ k data, Get sample_table k = Some data →
                     ¬ key_le (bytes "user1") k)) as Hnone by (left; lia).
  split_and!; [exact Hlive|exact Hnone|].
  exact (@Scan_nothing debug_build (bytes "usertable") (bytes "user1") 0 None []
           sample_state sample_table Hlive Hnone).
Defined.

Lemma Scan_one_is_Read_witness :
  db_ sample_state = live sample_table ∧
  Get sample_table (bytes "user2") = Some (SerializeRow sample_row []) ∧
  @Scan debug_build (bytes "usertable") (bytes "user2") 1 None [] sample_state
    = (Done (kOK, [sample_row]), sample_state).
Proof.
  assert (db_ sample_state = live sample_table) as Hlive by reflexivity.
  assert (Get sample_table (bytes "user2") = Some (SerializeRow sample_row []))
    as Hget by (vm_compute; reflexivity).
  split_and!; [exact Hlive|exact Hget|].
  rewrite (@Scan_one_is_Read debug_build (bytes "usertable") (bytes "user2")
             (SerializeRow sample_row []) None sample_state sample_table Hlive Hget).
  vm_compute. reflexivity.
Defined.

Lemma Scan_shorter_witness :
  0 ≤ 1 ≤ 5 ∧
  @Scan debug_build (bytes "usertable") (bytes "user2") 5 None [] sample_state
    = (Done (kOK, [] ++ [sample_row; sample_row]), sample_state) ∧
  @Scan debug_build (bytes "usertable") (bytes "user2") 1 None [] sample_state
    = (Done (kOK, [] ++ take (Z.to_nat 1) [sample_row; sample_row]), sample_state).
Proof.
  assert (0 ≤ 1 ≤ 5) as Hlen by lia.
  assert (@Scan debug_build (bytes "usertable") (bytes "user2") 5 None []
            sample_state
          = (Done (kOK, [] ++ [sample_row; sample_row]), sample_state)) as Hscan
    by (vm_compute; reflexivity).
  split; [exact Hlen|]. split; [exact Hscan|].
  exact (@Scan_shorter debug_build (bytes "usertable") (bytes "user2") 1 5 None []
           [sample_row; sample_row] sample_state Hlen Hscan).
Defined.

Lemma Insert_then_filtered_Read_witness :
  db_ sample_state = live sample_table ∧
  Forall fits (take 2 sample_row) ∧
  [bytes "field1"] `sublist_of` (name <$> take 2 sample_row) ∧
  ∃ s', Insert (bytes "usertable") (bytes "user5") (take 2 sample_row) sample_state
          = (Done kOK, s') ∧
        @Read debug_build (bytes "usertable") (bytes "user5")
            (Some [bytes "field1"]) [] s'
          = (Done (kOK, merge_select (take 2 sample_row) [bytes "field1"]), s').
Proof.
  assert (db_ sample_state = live sample_table) as Hlive by reflexivity.
  assert (Forall fits (take 2 sample_row)) as Hfits
    by (repeat constructor; vm_compute; reflexivity).
  assert ([bytes "field1"] `sublist_of` (name <$> take 2 sample_row)) as Hsub
    by (apply sublist_cons, sublist_skip, sublist_nil_l).
  split_and!; [exact Hlive|exact Hfits|exact Hsub|].
  exact (@Insert_then_filtered_Read debug_build (bytes "usertable") (bytes "user5")
           (take 2 sample_row) [bytes "field1"] sample_state sample_table
           Hlive Hfits Hsub).
Defined.

Lemma Insert_frame_witness :
  db_ sample_state = live sample_table ∧
  ∃ t', db_ (Insert (bytes "usertable") (bytes "user1") [] sample_state).2 = live t' ∧
        Get t' (bytes "user1") = Some [] ∧
        Get t' (bytes "user2") = Get sample_table (bytes "user2").
Proof.
  assert (db_ sample_state = live sample_table) as Hlive by reflexivity.
  split; [exact Hlive|].
  destruct (Insert_frame (bytes "usertable") (bytes "user1") []
              sample_state sample_table Hlive)
    as (t' & Hdb & _ & _ & _ & _ & _ & Hkey & Hother).
  exists t'. split_and!; [exact Hdb|exact Hkey|].
  apply Hother. discriminate.
Defined.

Lemma Init_joins_existing_handle_witness :
  db_ (set_this pathless_db sample_state) ≠ nullptr ∧
  stoi (GetProperty (props_ (this (set_this pathless_db sample_state)))
          (@FIELD_COUNT_PROPERTY debug_build) (@FIELD_COUNT_DEFAULT debug_build))
    = Done 10 ∧
  ref_cnt_ (set_this pathless_db sample_state) ≠ 2 ^ 31 - 1 ∧
  ∃ s', @Init debug_build (set_this pathless_db sample_state) = (Done tt, s') ∧
        db_ s' = live sample_table ∧ ref_cnt_ s' = 2.
Proof.
  assert (db_ (set_this pathless_db sample_state) ≠ nullptr) as Hdb by discriminate.
  assert (stoi (GetProperty (props_ (this (set_this pathless_db sample_state)))
            (@FIELD_COUNT_PROPERTY debug_build) (@FIELD_COUNT_DEFAULT debug_build))
          = Done 10) as Hfc by (vm_compute; reflexivity).
  assert (ref_cnt_ (set_this pathless_db sample_state) ≠ 2 ^ 31 - 1) as Hcount
    by (vm_compute; discriminate).
  split_and!; [exact Hdb|exact Hfc|exact Hcount|].
  destruct (@Init_joins_existing_handle debug_build
              (set_this pathless_db sample_state) 10 Hdb Hfc Hcount)
    as (s' & Hinit & Hdb' & _ & Href & _).
  exists s'. split_and!; [exact Hinit|exact Hdb'|exact Href].
Defined.

Lemma Init_bad_field_count_witness :
  let o := mkBTreeDB {[ bytes "fieldcount" := bytes "ten" ]} 7 in
  stoi (GetProperty (props_ (this (set_ref_cnt_ 2 (initial o))))
          (@FIELD_COUNT_PROPERTY debug_build) (@FIELD_COUNT_DEFAULT debug_build))
    = Thrown invalid_argument ∧
  ∃ s', @Init debug_build (set_ref_cnt_ 2 (initial o)) = (Thrown invalid_argument, s') ∧
        ref_cnt_ s' = 2 ∧ db_ s' = nullptr ∧ fieldcount_ (this s') = 7.
Proof.
  cbv zeta.
  set (o := mkBTreeDB {[ bytes "fieldcount" := bytes "ten" ]} 7).
  assert (stoi (GetProperty (props_ (this (set_ref_cnt_ 2 (initial o))))
                  (@FIELD_COUNT_PROPERTY debug_build)
                  (@FIELD_COUNT_DEFAULT debug_build))
          = Thrown invalid_argument) as Hfc by (vm_compute; reflexivity).
  split; [exact Hfc|].
  destruct (@Init_bad_field_count debug_build (set_ref_cnt_ 2 (initial o))
              invalid_argument Hfc)
    as (s' & Hinit & Href & Hdb & _ & Hfield & _).
  exists s'. split; [exact Hinit|]. split; [exact Href|].
  split; [exact Hdb|exact Hfield].
Defined.

Lemma Init_bad_pool_size_witness :
  let o := mkBTreeDB {[ PROP_NAME := bytes "/tmp/btree.db";
                        POOL_SIZE_NAME := bytes "99999999999" ]} 0 in
  db_ (initial o) = nullptr ∧
  db_path (this (initial o)) ≠ [] ∧
  stoi (GetProperty (props_ (this (initial o))) POOL_SIZE_NAME POOL_SIZE_NAME_DEFAULT)
    = Thrown out_of_range ∧
  ∃ s', @Init debug_build (initial o) = (Thrown out_of_range, s') ∧
        ref_cnt_ s' = 1 ∧ db_ s' = nullptr ∧ trace s' = [].
Proof.
  cbv zeta.
  set (o := mkBTreeDB {[ PROP_NAME := bytes "/tmp/btree.db";
                         POOL_SIZE_NAME := bytes "99999999999" ]} 0).
  assert (db_ (initial o) = nullptr) as Hdb by reflexivity.
  assert (db_path (this (initial o)) ≠ []) as Hpath by (vm_compute; discriminate).
  assert (stoi (GetProperty (props_ (this (initial o)))
                  POOL_SIZE_NAME POOL_SIZE_NAME_DEFAULT)
          = Thrown out_of_range) as Hpool by (vm_compute; reflexivity).
  split_and!; [exact Hdb|exact Hpath|exact Hpool|].
  exact (@Init_bad_pool_size debug_build (initial o) 10 out_of_range Hdb
           ltac:(vm_compute; reflexivity) ltac:(vm_compute; discriminate)
           Hpath Hpool).
Defined.

Lemma Cleanup_deletes_at_one_witness :
  ref_cnt_ sample_state ≠ - 2 ^ 31 ∧
  Cleanup sample_state
  = (Done tt, set_db_ dangling (emit Closed (set_ref_cnt_ 0 sample_state))).
Proof.
  assert (ref_cnt_ sample_state ≠ - 2 ^ 31) as Hmin by (vm_compute; discriminate).
  split; [exact Hmin|].
  destruct (@Cleanup_deletes_at_one debug_build sample_state Hmin) as (_ & Hlast & _).
  exact (Hlast sample_table eq_refl eq_refl).
Defined.

Lemma engine_opened_at_most_once_witness :
  let cs := [ call_Init sample_db;
              call_Insert sample_db (bytes "usertable") (bytes "user1") sample_row;
              call_Read (mkBTreeDB sample_props 3) (bytes "usertable") (bytes "user1") None [];
              call_Cleanup sample_db;
              call_Init sample_db ] in
  ∃ s, @run_calls debug_build cs (initial sample_db) = Some s ∧
       db_ s = dangling ∧
       ((db_ s = nullptr ∧ trace s = []) ∨
        (∃ t, db_ s = live t ∧ trace s = [Opened (table_path t) (table_pages t)]) ∨
        (∃ path page_num,
           db_ s = dangling ∧ trace s = [Opened path page_num; Closed])).
Proof.
  cbv zeta. eexists. split; [vm_compute; reflexivity|]. split; [reflexivity|].
  apply (@engine_opened_at_most_once debug_build sample_db
           [ call_Init sample_db;
             call_Insert sample_db (bytes "usertable") (bytes "user1") sample_row;
             call_Read (mkBTreeDB sample_props 3) (bytes "usertable") (bytes "user1") None [];
             call_Cleanup sample_db;
             call_Init sample_db ]).
  vm_compute. reflexivity.
Defined.

(** ** What the filtered decode returns on any buffer *)

Section FilterAnyBuffer.
Context `{!Build}.

Lemma DeserializeRowFilter_loop_names (fuel : nat) (values out : list Field)
    (p : std_string) (filter : list std_string) :
  DeserializeRowFilter_loop fuel values p filter = Done out →
  ∃ got, out = values ++ got ∧ name <$> got `prefix_of` filter.
Proof.
  revert values p filter. induction fuel as [|fuel IH]; intros values p filter.
  - destruct p, filter; try done; intros [= <-]; exists [];
      (split; [by rewrite app_nil_r|apply prefix_nil]).
  - destruct p as [|b p].
    { destruct filter; intros [= <-]; exists [];
        (split; [by rewrite app_nil_r|apply prefix_nil]). }
    destruct filter as [|wanted filter].
    { intros [= <-]. exists []. split; [by rewrite app_nil_r|apply prefix_nil]. }
    rewrite DeserializeRowFilter_loop_step by done.
    intros ([f p'] & _ & Hrest)%bind_Done. case_decide as Hw.
    + apply IH in Hrest as (got & -> & Hpre). exists (f :: got).
      split; [by rewrite <- (assoc_L (++))|].
      cbn [fmap list_fmap]. subst wanted. by apply prefix_cons.
    + by apply IH in Hrest.
Qed.

(** X21: on any buffer, well-formed or not, a filtered decode that returns
    has collected fields whose names are, in order, the first of the requested
    names; in a build with assertions they are all the requested names. *)
Theorem DeserializeRowFilter_returns_requested (data : std_string)
    (fields : list std_string) (out : list Field) :
  DeserializeRowFilter [] data fields = Done out →
  name <$> out `prefix_of` fields ∧
  (NDEBUG = false → name <$> out = fields).
Proof.
  unfold DeserializeRowFilter, DeserializeRowFilter_range.
  intros (out' & (got & -> & Hpre)%DeserializeRowFilter_loop_names & Hassert)%bind_Done.
  cbn [app] in *.
  apply bind_Done in Hassert as ([] & Hassert & [= <-]).
  split; [done|]. intros Hdebug. unfold assert in Hassert. rewrite Hdebug in Hassert.
  case_bool_decide as Hlen; [|done].
  apply prefix_length_eq; [done|]. rewrite length_fmap. lia.
Qed.
End FilterAnyBuffer.

Lemma DeserializeRowFilter_returns_requested_witness :
  @DeserializeRowFilter debug_build [] (SerializeRow sample_row [])
      [bytes "field0"; bytes "field2"]
    = Done [mkField (bytes "field0") (bytes "alpha"); mkField (bytes "field2") []] ∧
  name <$> [mkField (bytes "field0") (bytes "alpha"); mkField (bytes "field2") []]
    = [bytes "field0"; bytes "field2"].
Proof.
  assert (@DeserializeRowFilter debug_build [] (SerializeRow sample_row [])
            [bytes "field0"; bytes "field2"]
          = Done [mkField (bytes "field0") (bytes "alpha");
                  mkField (bytes "field2") []]) as Hdone
    by (vm_compute; reflexivity).
  split; [exact Hdone|].
  exact (proj2 (@DeserializeRowFilter_returns_requested debug_build _ _ _ Hdone)
           eq_refl).
Defined.
